(** * flirt.eda.preprocessing.particleFilter

    A shallow embedding of [particleFilter.py]: the random-walk state-space
    [Model] handed to pyparticleest, and the [ParticleFilter] preprocessor
    that runs pyparticleest's simulator over an EDA series.

    Conventions of the embedding.
    - A Python float is a [float]: a real number, or one of the IEEE special
      values.  Rounding and overflow of finite values are not modelled.
    - An [ndarray] is an object of the store, named by a reference.  The
      arrays the code combines are columns, of shape (n,1), or hold a single
      entry, of shape (1,1) or (); each is kept as the list of its entries,
      and an array of a single entry broadcasts against any column.
    - A call into numpy's global random generator is a [Draw] node of the
      program type [py]; a run is obtained by interpreting the nodes with a
      generator state.
    - numpy, pandas and pyparticleest are not part of the sources.  What the
      code needs of them is written out where it is their standard behaviour
      (broadcasting, indexing, the length check of [pd.Series]), and is an
      operation of a class otherwise ([Kalman], [Simulator], [NumpyRandom]):
      a run of pyparticleest's simulator is such an operation as a whole. *)

From Stdlib Require Import Reals Lra ZArith String.
From stdpp Require Import gmap list.

(** ** Floats *)

Inductive float : Type :=
| Fin (r : R)
| PInf
| NInf
| NaN.

Definition fneg (a : float) : float :=
  match a with
  | Fin x => Fin (- x)
  | PInf => NInf
  | NInf => PInf
  | NaN => NaN
  end.

Definition fadd (a b : float) : float :=
  match a, b with
  | NaN, _ | _, NaN => NaN
  | Fin x, Fin y => Fin (x + y)
  | PInf, NInf | NInf, PInf => NaN
  | PInf, _ | _, PInf => PInf
  | NInf, _ | _, NInf => NInf
  end.

Definition fsub (a b : float) : float := fadd a (fneg b).

Definition fsum (xs : list float) : float := foldl fadd (Fin 0) xs.

(** [np.mean] of a one-dimensional array: the sum divided by the count,
    [nan] for an empty array. *)
Definition fmean (xs : list float) : float :=
  match xs with
  | [] => NaN
  | _ => match fsum xs with
         | Fin s => Fin (s / INR (length xs))
         | v => v
         end
  end.

Definition is_finite (a : float) : bool :=
  match a with
  | Fin _ => true
  | _ => false
  end.

(** ** Exceptions, programs and the store *)

Inductive exn : Type :=
| ValueError
| IndexError
| TypeError
| ReferenceError.

Definition result (A : Type) : Type := exn + A.

(** The calls into [np.random] made by the code and by pyparticleest. *)
Inductive np_random : Type :=
| normal (loc scale : float) (size : Z)
| random_sample (size : Z).

(** A program either returns, raises, or asks numpy's global generator for
    an array of draws and goes on with it. *)
Inductive py (A : Type) : Type :=
| Ret (a : A)
| Raise (e : exn)
| Draw (c : np_random) (k : list float -> py A).

Arguments Ret {A} a.
Arguments Raise {A} e.
Arguments Draw {A} c k.

Fixpoint py_bind {A B : Type} (p : py A) (f : A -> py B) : py B :=
  match p with
  | Ret a => f a
  | Raise e => Raise e
  | Draw c k => Draw c (fun xs => py_bind (k xs) f)
  end.

(** References to array objects, and the store that holds them. *)
Abbreviation ref := positive (only parsing).
Abbreviation heap := (gmap positive (list float)) (only parsing).

(** Code that reads and writes array objects: a state transformer over [py]. *)
Definition pyS (A : Type) : Type := heap -> py (A * heap).

Definition ret {A : Type} (a : A) : pyS A := fun h => Ret (a, h).

Definition raise {A : Type} (e : exn) : pyS A := fun _ => Raise e.

Definition bind {A B : Type} (m : pyS A) (f : A -> pyS B) : pyS B :=
  fun h => py_bind (m h) (fun ah => f (fst ah) (snd ah)).

Declare Scope py_scope.
Delimit Scope py_scope with py.
Notation "x <- m ;; k" := (bind m (fun x => k))
  (at level 100, m at next level, right associativity) : py_scope.
Notation "m ;;; k" := (bind m (fun _ => k))
  (at level 100, right associativity) : py_scope.
Local Open Scope py_scope.

Definition lift {A : Type} (x : result A) : pyS A :=
  match x with
  | inl e => raise e
  | inr a => ret a
  end.

(** A new array object, at a reference not in use. *)
Definition new_array (xs : list float) : pyS ref :=
  fun h => let r := fresh (dom h) in Ret (r, <[r := xs]> h).

Definition read (r : ref) : pyS (list float) :=
  fun h => match h !! r with
           | Some xs => Ret (xs, h)
           | None => Raise ReferenceError
           end.

Definition write (r : ref) (xs : list float) : pyS unit :=
  fun h => Ret (tt, <[r := xs]> h).

Definition np_random_call (c : np_random) : pyS (list float) :=
  fun h => Draw c (fun xs => Ret (xs, h)).

(** [returns p a]: for some arrays of draws, [p] returns [a]. *)
Inductive returns {A : Type} : py A -> A -> Prop :=
| returns_Ret (a : A) : returns (Ret a) a
| returns_Draw (c : np_random) (k : list float -> py A) (xs : list float) (a : A) :
    returns (k xs) a -> returns (Draw c k) a.

Definition raises {A : Type} (p : py A) : Prop := exists e : exn, p = Raise e.

(** numpy's global generator: its state, and what a call returns. *)
Class NumpyRandom : Type := {
  rng : Type;
  np_random_draw : np_random -> rng -> result (list float) * rng
}.

Fixpoint run {np : NumpyRandom} {A : Type} (p : py A) (g : rng) : result A * rng :=
  match p with
  | Ret a => (inr a, g)
  | Raise e => (inl e, g)
  | Draw c k =>
      match np_random_draw c g with
      | (inl e, g') => (inl e, g')
      | (inr xs, g') => run (k xs) g'
      end
  end.

(** ** numpy *)

Fixpoint mapM {A B : Type} (f : A -> result B) (l : list A) : result (list B) :=
  match l with
  | [] => inr []
  | a :: l' =>
      match f a with
      | inl e => inl e
      | inr b => match mapM f l' with
                 | inl e => inl e
                 | inr bs => inr (b :: bs)
                 end
      end
  end.

(** The scalar held by an array of a single entry. *)
Definition item (a : list float) : result float :=
  match a with
  | [x] => inr x
  | _ => inl ValueError
  end.

(** [a op b] on two columns, with broadcasting of a single entry. *)
Definition np_binary (op : float -> float -> float) (a b : list float)
  : result (list float) :=
  if decide (length a = length b) then inr (zip_with op a b)
  else match a, b with
       | _, [y] => inr (map (fun x => op x y) a)
       | [x], _ => inr (map (fun y => op x y) b)
       | _, _ => inl ValueError
       end.

(** [a op= b]: the result must have the shape of [a]. *)
Definition np_inplace (op : float -> float -> float) (a b : list float)
  : result (list float) :=
  if decide (length a = length b) then inr (zip_with op a b)
  else match b with
       | [y] => inr (map (fun x => op x y) a)
       | _ => inl ValueError
       end.

(** [a[i]] for an integer [i]; negative indices count from the end. *)
Definition np_getitem (a : list float) (i : Z) : result float :=
  let n := Z.of_nat (length a) in
  let j := if decide (i < 0)%Z then (i + n)%Z else i in
  if decide (0 <= j < n)%Z
  then match a !! Z.to_nat j with
       | Some x => inr x
       | None => inl IndexError
       end
  else inl IndexError.

(** [a[ind]] for an array of integers [ind]. *)
Definition np_take (a : list float) (ind : list Z) : result (list float) :=
  mapM (np_getitem a) ind.

(** [a[:, 0]] of a matrix given by its rows. *)
Definition column0 (a : list (list float)) : result (list float) :=
  mapM (fun row => match row with
                   | x :: _ => inr x
                   | [] => inl IndexError
                   end) a.

(** ** pandas *)

Module pd.

Record Series_t : Type := mk {
  values : ref;
  index : list Z;
  name : option string
}.

(** [pd.Series(data=..., index=..., name=...)] from an array and an index:
    the lengths must agree, and the series then holds the array it was
    given, not a copy of it. *)
Definition Series (data : ref) (index_ : list Z) (name_ : string)
  : pyS Series_t :=
  vs <- read data ;;
  if decide (length vs = length index_)
  then ret (mk data index_ (Some name_))
  else raise ValueError.

End pd.

(** ** pyparticleest *)

(** [pyparticleest.utils.kalman]: the two density functions the model calls,
    on scalars: the error and the variance, which the code passes as arrays
    of a single entry. *)
Class Kalman : Type := {
  lognormpdf_scalar : float -> float -> result float;
  lognormpdf : float -> float -> result float
}.

(** The objects [logp_xnext_full] is called with. *)
Module pf.

Record ParticleApproximation : Type := {
  part : ref;
  w : ref
}.

Record TrajectoryStep : Type := {
  pa : ParticleApproximation
}.

End pf.

Module interfaces.

(** The methods pyparticleest calls on a model. *)
Record ParticleFiltering : Type := {
  create_initial_estimate : Z -> pyS ref;
  sample_process_noise : ref -> option float -> Z -> pyS ref;
  update : ref -> option float -> Z -> ref -> pyS unit;
  measure : ref -> float -> Z -> pyS ref;
  logp_xnext_full : ref -> list pf.TrajectoryStep -> list Z -> pyS ref
}.

End interfaces.

(** [pyparticleest.simulator].  [simulate model y num_part num_traj filter
    smoother meas_first] is the run
    [Simulator(model, u=None, y=y).simulate(num_part, num_traj, filter=...,
    smoother=..., meas_first=...)]: what it draws, which methods of the model
    it calls and in which order, and what it raises are the library's.  The
    state of the simulator object after the run is kept abstract, with what
    is read from it: [get_filtered_mean] is a (T', D) matrix, one row per
    step of the forward filter and one column per state dimension;
    [get_smoothed_estimates] gives, for each step, the values of the backward
    trajectories at that step. *)
Class Simulator : Type := {
  sim_state : Type;
  simulate :
    interfaces.ParticleFiltering -> ref -> Z -> Z ->
    string -> string -> bool -> pyS sim_state;
  get_filtered_mean : sim_state -> result (list (list float));
  get_smoothed_estimates : sim_state -> list (list float)
}.

(** Modelled from the spec: pyparticleest's [get_smoothed_mean] is not part
    of the sources; the smoothed estimate at a step is the unweighted
    arithmetic mean, across the backward trajectories, of their value at
    that step. *)
Definition smoothed_estimate {sim : Simulator} (st : sim_state) : list float :=
  map fmean (get_smoothed_estimates st).

(** ** class Model *)

Module Model.

(** The attributes are arrays of the store: [np.copy] makes a new object of
    each argument. *)
Record t : Type := mk {
  P0 : ref;
  Q : ref;
  R : ref
}.

Definition __init__ (P0_ Q_ : float) (R_ : ref) : pyS t :=
  p <- new_array [P0_] ;;
  q <- new_array [Q_] ;;
  Rv <- read R_ ;;
  r <- new_array Rv ;;
  ret (mk p q r).

Definition create_initial_estimate (self : t) (N : Z) : pyS ref :=
  sP0 <- read (P0 self) ;;
  scale <- lift (item sP0) ;;
  xs <- np_random_call (normal (Fin 0) scale N) ;;
  new_array xs.

Definition sample_process_noise (self : t) (particles : ref)
    (u : option float) (t : Z) : pyS ref :=
  ps <- read particles ;;
  let N := Z.of_nat (length ps) in
  sQ <- read (Q self) ;;
  scale <- lift (item sQ) ;;
  xs <- np_random_call (normal (Fin 0) scale N) ;;
  new_array xs.

(** [particles += noise]; the method returns [None]. *)
Definition update (self : t) (particles : ref) (u : option float) (t : Z)
    (noise : ref) : pyS unit :=
  ps <- read particles ;;
  ns <- read noise ;;
  ps' <- lift (np_inplace fadd ps ns) ;;
  write particles ps'.

Definition measure {kalman : Kalman} (self : t) (particles : ref) (y : float)
    (t : Z) : pyS ref :=
  ps <- read particles ;;
  sR <- read (R self) ;;
  logyprob <- lift (mapM (fun x =>
                match item sR with
                | inl e => inl e
                | inr var => lognormpdf_scalar (fsub x y) var
                end) ps) ;;
  new_array logyprob.

(** The arguments [past_trajs], [pind], [ut], [yt], [tt] and [cur_ind] are
    not read by the method and are left out. *)
Definition logp_xnext_full {kalman : Kalman} (self : t) (part : ref)
    (future_trajs : list pf.TrajectoryStep) (find : list Z) : pyS ref :=
  match future_trajs with
  | [] => raise IndexError
  | step :: _ =>
      fp <- read (pf.part (pf.pa step)) ;;
      sel <- lift (np_take fp find) ;;
      ps <- read part ;;
      diff <- lift (np_binary fsub sel ps) ;;
      sQ <- read (Q self) ;;
      logpxnext <- lift (mapM (fun d =>
                     match item sQ with
                     | inl e => inl e
                     | inr var => lognormpdf d var
                     end) diff) ;;
      new_array logpxnext
  end.

(** The model as pyparticleest sees it. *)
Definition as_ParticleFiltering {kalman : Kalman} (self : t)
  : interfaces.ParticleFiltering :=
  {| interfaces.create_initial_estimate := create_initial_estimate self;
     interfaces.sample_process_noise := sample_process_noise self;
     interfaces.update := update self;
     interfaces.measure := measure self;
     interfaces.logp_xnext_full := logp_xnext_full self |}.

End Model.

(** ** class ParticleFilter *)

Module ParticleFilter.

Record t : Type := mk {
  num_particles : Z;
  num_smoothers : Z;
  P0 : float;
  Q : float;
  R : ref
}.

(** [self.R = np.asarray(((R_variance,),))] is a new array of shape (1,1). *)
Definition __init__ (num_particles_ num_smoothers_ : Z)
    (P0_variance Q_variance R_variance : float) : pyS t :=
  r <- new_array [R_variance] ;;
  ret (mk num_particles_ num_smoothers_ P0_variance Q_variance r).

(** Lines 107-113: the model and the simulator run.  [np.ravel(data)] is the
    array of the series itself; [eda_len] is not used. *)
Definition simulate_data {kalman : Kalman} {sim : Simulator} (self : t)
    (data : pd.Series_t) : pyS sim_state :=
  let eda := pd.values data in
  model <- Model.__init__ (P0 self) (Q self) (R self) ;;
  simulate (Model.as_ParticleFiltering model) eda
    (num_particles self) (num_smoothers self) "PF" "full" false.

(** Lines 115-119: the series built from the simulator.  [vals_mean] is an
    array the simulator makes for the caller; its column 0 is the array
    object [particle_filtered], which the series then holds. *)
Definition filtered_series {sim : Simulator} (st : sim_state)
    (data : pd.Series_t) : pyS pd.Series_t :=
  vals_mean <- lift (get_filtered_mean st) ;;
  column <- lift (column0 vals_mean) ;;
  particle_filtered <- new_array column ;;
  pd.Series particle_filtered (pd.index data) "filtered_eda".

Definition __process__ {kalman : Kalman} {sim : Simulator} (self : t)
    (data : pd.Series_t) : pyS pd.Series_t :=
  st <- simulate_data self data ;;
  filtered_series st data.

End ParticleFilter.

(** ** The vocabulary of the statements *)

(** The five operations of the model, as calls; an operation that returns an
    array returns its reference, [update] returns [None]. *)
Inductive model_call : Type :=
| call_create_initial_estimate (N : Z)
| call_sample_process_noise (particles : ref) (u : option float) (t : Z)
| call_update (particles : ref) (u : option float) (t : Z) (noise : ref)
| call_measure (particles : ref) (y : float) (t : Z)
| call_logp_xnext_full (part : ref) (future_trajs : list pf.TrajectoryStep)
    (find : list Z).

Definition perform {kalman : Kalman} (self : Model.t) (c : model_call)
  : pyS (option ref) :=
  match c with
  | call_create_initial_estimate N =>
      r <- Model.create_initial_estimate self N ;; ret (Some r)
  | call_sample_process_noise particles u t =>
      r <- Model.sample_process_noise self particles u t ;; ret (Some r)
  | call_update particles u t noise =>
      Model.update self particles u t noise ;;; ret None
  | call_measure particles y t =>
      r <- Model.measure self particles y t ;; ret (Some r)
  | call_logp_xnext_full part future_trajs find =>
      r <- Model.logp_xnext_full self part future_trajs find ;; ret (Some r)
  end.

(** The density at [x] of the normal law of the given mean and variance. *)
Definition normal_pdf (mean var x : R) : R :=
  (/ sqrt (2 * PI * var) * exp (- ((x - mean) * (x - mean) / (2 * var))))%R.

(** What pyparticleest.utils.kalman is taken to compute: the log-density of
    the centred normal law of variance [var] at the error [err], for a
    positive variance. *)
Definition kalman_lognormal {kalman : Kalman} : Prop :=
  forall e v : R, (0 < v)%R ->
    lognormpdf_scalar (Fin e) (Fin v) = inr (Fin (ln (normal_pdf 0 v e))) /\
    lognormpdf (Fin e) (Fin v) = inr (Fin (ln (normal_pdf 0 v e))).

(** The library does not write the array of measurements it is given, when
    run on this model. *)
Definition keeps_measurements {kalman : Kalman} {sim : Simulator} : Prop :=
  forall (m : Model.t) (y : ref) (N M : Z) (f s : string) (mf : bool)
         (h h' : heap) (st : sim_state),
    returns (simulate (Model.as_ParticleFiltering m) y N M f s mf h) (st, h') ->
    h' !! y = h !! y.

Definition non_positive (a : float) : Prop :=
  match a with
  | Fin x => (x <= 0)%R
  | NInf => True
  | _ => False
  end.

Definition invalid_configuration (N M : Z) (P0 Q R : float) : Prop :=
  non_positive P0 \/ non_positive Q \/ non_positive R \/ (N <= 0)%Z \/ (M <= 0)%Z.

Definition has_non_finite (xs : list float) : Prop :=
  exists x : float, x ∈ xs /\ is_finite x = false.

(** What [__process__] does once the model [m] has been built, leaving the
    store [h1]: the simulator is run on the model, the array of the series
    and the two counts of [self], and the series is built from its state. *)
Definition after_model {kalman : Kalman} {sim : Simulator}
    (self : ParticleFilter.t) (data : pd.Series_t)
    (m : Model.t) (h1 : heap) : py (pd.Series_t * heap) :=
  py_bind
    (simulate (Model.as_ParticleFiltering m) (pd.values data)
       (ParticleFilter.num_particles self) (ParticleFilter.num_smoothers self)
       "PF" "full" false h1)
    (fun sh => ParticleFilter.filtered_series (fst sh) data (snd sh)).

(** The simulator [sim] with something else in the place of its smoothed
    estimates. *)
Definition with_smoothed_estimates (sim : Simulator)
    (other : sim_state -> list (list float)) : Simulator :=
  {| sim_state := sim_state;
     simulate := simulate;
     get_filtered_mean := get_filtered_mean;
     get_smoothed_estimates := other |}.

(** ** Instances and data for the examples *)

(** The closed formula [-0.5 * (log(2 pi) + log(var) + err**2 / var)] of the
    log-density of a centred normal law, for a positive variance: it is
    [-inf] at an infinite error and [nan] at [nan]. *)
Definition lognormal_formula (err : float) (v : R) : float :=
  match err with
  | Fin e => Fin (- (1 / 2) * (ln (2 * PI) + ln v + e * e / v))
  | PInf | NInf => NInf
  | NaN => NaN
  end.

(** [lognormpdf_scalar] takes the logarithm of the variance with [math.log],
    which raises [ValueError] on a variance that is not positive. *)
Definition lognormpdf_scalar_formula (err var : float) : result float :=
  match var with
  | Fin v => if Rlt_dec 0 v then inr (lognormal_formula err v) else inl ValueError
  | PInf => inr (match err with Fin _ => NInf | _ => NaN end)
  | NInf => inl ValueError
  | NaN => inr NaN
  end.

(** [lognormpdf], on a covariance matrix of a single entry: the logarithm is
    that of the absolute value of the determinant and the error is divided
    by the variance, so that a negative variance gives a number; the
    variance 0 cannot be divided by, and raises. *)
Definition lognormpdf_formula (err var : float) : result float :=
  match var with
  | Fin v =>
      if Rlt_dec 0 v then inr (lognormal_formula err v)
      else if Rlt_dec v 0
           then inr (match err with
                     | Fin e => Fin (- (1 / 2) * (ln (2 * PI) + ln (- v) + e * e / v))
                     | PInf | NInf => PInf
                     | NaN => NaN
                     end)
           else inl ValueError
  | _ => inr NaN
  end.

Definition kalman_formulas : Kalman :=
  {| lognormpdf_scalar := lognormpdf_scalar_formula;
     lognormpdf := lognormpdf_formula |}.

(** What is read from a simulator after a run, written down. *)
Record recorded : Type := {
  recorded_filtered_mean : list (list float);
  recorded_smoothed_estimates : list (list float)
}.

(** A simulator of which the outcome of a run is known.  As pyparticleest
    does, it raises [IndexError] on an empty array of measurements, without
    drawing, and on any other array starts by asking the model for
    [num_part] initial particles; the state [st] stands for what the forward
    filter and the smoother leave after that. *)
Definition recorded_run (st : recorded) : Simulator :=
  {| sim_state := recorded;
     simulate := fun model y num_part _ _ _ _ =>
       ys <- read y ;;
       match ys with
       | [] => raise IndexError
       | _ :: _ =>
           interfaces.create_initial_estimate model num_part ;;; ret st
       end;
     get_filtered_mean := fun s => inr (recorded_filtered_mean s);
     get_smoothed_estimates := recorded_smoothed_estimates |}.

(** A store with a model's three parameter arrays (references 1, 2, 3), an
    array of two particles (4) and an array of two noise values (5). *)
Definition demo_heap : heap :=
  <[1%positive := [Fin (2 / 100)]]>
  (<[2%positive := [Fin (2 / 100)]]>
  (<[3%positive := [Fin (6 / 100)]]>
  (<[4%positive := [Fin 1; Fin 2]]>
  (<[5%positive := [Fin 10; Fin 20]]> ∅)))).

Definition demo_model : Model.t := Model.mk 1 2 3.

(** A series over the array 4 of [demo_heap], sampled at 4 Hz. *)
Definition demo_series : pd.Series_t := pd.mk 4 [0; 250]%Z (Some "eda"%string).

(** A recorded state with two rows of filtered means and two backward
    trajectories: what a run over the two samples of [demo_series] must
    leave for [__process__] to return. *)
Definition demo_recorded : recorded :=
  {| recorded_filtered_mean := [[Fin 2]; [Fin 4]];
     recorded_smoothed_estimates := [[Fin 1; Fin 2]; [Fin 3; Fin 4]] |}.

(** A recorded state over two measurements, as pyparticleest leaves it when
    run with [meas_first=False]: the initial estimate is a step of its own,
    so that there are three rows of filtered means, and the two backward
    trajectories have three values each. *)
Definition long_recorded : recorded :=
  {| recorded_filtered_mean := [[Fin 0]; [Fin 2]; [Fin 4]];
     recorded_smoothed_estimates := [[Fin 0; Fin 0]; [Fin 1; Fin 2]; [Fin 3; Fin 4]] |}.

(** A filter of two particles and two trajectories; its variance array is
    the array 3 of [demo_heap]. *)
Definition demo_self : ParticleFilter.t :=
  ParticleFilter.mk 2 2 (Fin (2 / 100)) (Fin (2 / 100)) 3.

(** The series and the store at the end of the run of [demo_self] over
    [demo_series] in which the initial particles are drawn as 0 and 0 and
    the simulator ends in [demo_recorded]. *)
Definition demo_out : pd.Series_t :=
  pd.mk 10 [0; 250]%Z (Some "filtered_eda"%string).

Definition demo_final_heap : heap :=
  <[10%positive := [Fin 2; Fin 4]]>
  (<[9%positive := [Fin 0; Fin 0]]>
  (<[8%positive := [Fin (6 / 100)]]>
  (<[7%positive := [Fin (2 / 100)]]>
  (<[6%positive := [Fin (2 / 100)]]> demo_heap)))).

(** A series with values that are not finite. *)
Definition nan_heap : heap := <[1%positive := [Fin 1; NaN; PInf]]> ∅.

Definition nan_series : pd.Series_t :=
  pd.mk 1 [0; 250; 500]%Z (Some "eda"%string).

(** A recorded state over the three measurements of [nan_series]: four rows,
    those after the measurement [nan] being [nan]. *)
Definition nan_recorded : recorded :=
  {| recorded_filtered_mean := [[Fin 0]; [Fin 1]; [NaN]; [NaN]];
     recorded_smoothed_estimates := replicate 4 (replicate 40 NaN) |}.

(** Default arguments of the constructor, on the store [nan_heap]. *)
Definition nan_self : ParticleFilter.t :=
  ParticleFilter.mk 80 40 (Fin (2 / 100)) (Fin (2 / 100)) 2.

Definition nan_init_heap : heap := <[2%positive := [Fin (6 / 100)]]> nan_heap.

(** ** Compositions and further vocabulary *)

(** The time update of a forward step: the noise the model samples for the
    particles is what the model then adds to them. *)
Definition propagate (self : Model.t) (particles : ref) (u : option float)
    (t : Z) : pyS unit :=
  noise <- Model.sample_process_noise self particles u t ;;
  Model.update self particles u t noise.

(** [update] called once for each step in turn, on the same particle array;
    a step is the input, the time and the noise array of the call. *)
Fixpoint updates (self : Model.t) (particles : ref)
    (steps : list (option float * Z * ref)) : pyS unit :=
  match steps with
  | [] => ret tt
  | (u, t, noise) :: rest =>
      Model.update self particles u t noise ;;; updates self particles rest
  end.

(** The steps read noise arrays that hold the given real values, each of
    the length [n] and none of them the particle array. *)
Definition noise_arrays (h : heap) (particles : ref) (n : nat)
    (steps : list (option float * Z * ref)) (noises : list (list R)) : Prop :=
  Forall2 (fun step ns =>
             snd step <> particles /\
             h !! snd step = Some (map Fin ns) /\
             length ns = n) steps noises.

(** Adding [c] to a float. *)
Definition shifted (c : R) (a : float) : float := fadd a (Fin c).

(** A program that makes no call to the generator, and one that makes at
    most one. *)
Definition draws_nothing {A : Type} (p : py A) : Prop :=
  (exists a : A, p = Ret a) \/ raises p.

Definition draws_at_most_once {A : Type} (p : py A) : Prop :=
  draws_nothing p \/
  exists (c : np_random) (k : list float -> py A),
    p = Draw c k /\ forall xs : list float, draws_nothing (k xs).

(** A generator that counts its calls: call number [k] returns an array of
    the size asked for, filled with [k]. *)
Definition requested_size (c : np_random) : nat :=
  match c with
  | normal _ _ size => Z.to_nat size
  | random_sample size => Z.to_nat size
  end.

Definition counting_generator : NumpyRandom :=
  {| rng := nat;
     np_random_draw := fun c k =>
       (inr (replicate (requested_size c) (Fin (INR k))), S k) |}.

(** [demo_heap] after [Model(0.02, 0.02, R)] has been built on its array 3:
    the model is [Model.mk 6 7 8]. *)
Definition demo_model_heap : heap :=
  <[8%positive := [Fin (6 / 100)]]>
  (<[7%positive := [Fin (2 / 100)]]>
  (<[6%positive := [Fin (2 / 100)]]> demo_heap)).

(** A store with two particle arrays (4, and 5 which is 4 moved by 9) and
    two arrays of next states (6, and 7 which is 6 moved by 9). *)
Definition shift_heap : heap :=
  <[3%positive := [Fin (6 / 100)]]>
  (<[2%positive := [Fin (2 / 100)]]>
  (<[4%positive := [Fin 1; Fin 2]]>
  (<[5%positive := map (shifted 9) [Fin 1; Fin 2]]>
  (<[6%positive := [Fin 10; Fin 20]]>
  (<[7%positive := map (shifted 9) [Fin 10; Fin 20]]> ∅))))).

(** A trajectory step whose particles are the array [r]. *)
Definition step_at (r : ref) : pf.TrajectoryStep :=
  {| pf.pa := {| pf.part := r; pf.w := r |} |}.

(** A second filter, built after [nan_self] on the store [nan_init_heap]. *)
Definition second_self : ParticleFilter.t :=
  ParticleFilter.mk 10 5 (Fin 1) (Fin 1) 3.

(** * Properties *)

(** ** Programs *)

Lemma returns_inv {A : Type} (p : py A) (b : A) :
  returns p b ->
  match p with
  | Ret a => a = b
  | Raise _ => False
  | Draw c k => exists xs, returns (k xs) b
  end.
Proof. intros Hr. destruct Hr as [a | c k xs a Hk]; [reflexivity | exists xs; exact Hk]. Qed.

(** What a run returns, the program returns. *)
Lemma run_returns {np : NumpyRandom} {A : Type} (p : py A) (g g' : rng) (a : A) :
  run p g = (inr a, g') -> returns p a.
Proof.
  revert g. induction p as [b | e | c k IH]; simpl; intros g Hrun.
  - injection Hrun as -> _. constructor.
  - discriminate Hrun.
  - destruct (np_random_draw c g) as [[e | xs] g1]; [discriminate Hrun |].
    apply (returns_Draw c k xs). exact (IH xs g1 Hrun).
Qed.

Lemma returns_py_bind {A B : Type} (p : py A) (f : A -> py B) (b : B) :
  returns (py_bind p f) b -> exists a, returns p a /\ returns (f a) b.
Proof.
  induction p as [a | e | c k IH]; simpl; intros Hr.
  - exists a. split; [constructor | exact Hr].
  - destruct (returns_inv _ _ Hr).
  - destruct (returns_inv _ _ Hr) as [xs Hk].
    destruct (IH xs Hk) as (a & Ha & Hb).
    exists a. split; [econstructor; exact Ha | exact Hb].
Qed.

Lemma returns_bind {A B : Type} (m : pyS A) (f : A -> pyS B) (h h' : heap) (b : B) :
  returns (bind m f h) (b, h') ->
  exists a h1, returns (m h) (a, h1) /\ returns (f a h1) (b, h').
Proof.
  unfold bind. intros Hr.
  destruct (returns_py_bind _ _ _ Hr) as ([a h1] & Ha & Hb).
  exists a, h1. split; assumption.
Qed.

Lemma returns_ret {A : Type} (a b : A) (h h' : heap) :
  returns (ret a h) (b, h') -> a = b /\ h = h'.
Proof. intros Hr. apply returns_inv in Hr. split; congruence. Qed.

Lemma returns_lift {A : Type} (x : result A) (b : A) (h h' : heap) :
  returns (lift x h) (b, h') -> x = inr b /\ h = h'.
Proof.
  destruct x as [e | a]; intros Hr; apply returns_inv in Hr; [destruct Hr |].
  split; congruence.
Qed.

Lemma returns_read (r : ref) (xs : list float) (h h' : heap) :
  returns (read r h) (xs, h') -> h !! r = Some xs /\ h = h'.
Proof.
  unfold read. destruct (h !! r) as [ys |]; intros Hr; apply returns_inv in Hr;
    [| destruct Hr].
  split; congruence.
Qed.

Lemma returns_new_array (xs : list float) (r : ref) (h h' : heap) :
  returns (new_array xs h) (r, h') ->
  h !! r = None /\ h' = <[r := xs]> h.
Proof.
  intros Hr. apply returns_inv in Hr. injection Hr as <- <-.
  split; [| reflexivity]. apply not_elem_of_dom, is_fresh.
Qed.

Lemma returns_np_random_call (c : np_random) (xs : list float) (h h' : heap) :
  returns (np_random_call c h) (xs, h') -> h = h'.
Proof.
  intros Hr. apply returns_inv in Hr. destruct Hr as [ys Hr].
  apply returns_inv in Hr. congruence.
Qed.

Lemma returns_write (r : ref) (xs : list float) (u : unit) (h h' : heap) :
  returns (write r xs h) (u, h') -> h' = <[r := xs]> h.
Proof. intros Hr. apply returns_inv in Hr. congruence. Qed.

(** ** The model: transition *)

Lemma zip_with_fadd_lookup (xs ns : list float) (k : nat) (x n : R) :
  xs !! k = Some (Fin x) -> ns !! k = Some (Fin n) ->
  zip_with fadd xs ns !! k = Some (Fin (x + n)).
Proof.
  intros Hx Hn. rewrite lookup_zip_with, Hx. simpl. rewrite Hn. reflexivity.
Qed.

Lemma update_equal_shapes (self : Model.t) (particles noise : ref)
    (u : option float) (t : Z) (h : heap) (xs ns : list float) :
  h !! particles = Some xs -> h !! noise = Some ns -> length xs = length ns ->
  Model.update self particles u t noise h
  = Ret (tt, <[particles := zip_with fadd xs ns]> h).
Proof.
  intros Hp Hn Hlen.
  unfold Model.update, bind, read. rewrite Hp. simpl. rewrite Hn. simpl.
  unfold np_inplace. destruct (decide (length xs = length ns)) as [_ | Hne];
    [reflexivity | contradiction].
Qed.

(** C9.  [Model.update], given an array of particles and an array of noise
    of the same shape, leaves in the particle array, entry by entry, the
    particle plus its noise: for a real particle [x] and a real noise [n]
    the entry is exactly [x + n].  The control input [u] and the time [t] are
    not read. *)
Theorem update_adds_noise (self : Model.t) (particles noise : ref)
    (u : option float) (t : Z) (h : heap) (xs ns : list float) :
  h !! particles = Some xs -> h !! noise = Some ns -> length xs = length ns ->
  exists xs',
    Model.update self particles u t noise h = Ret (tt, <[particles := xs']> h) /\
    length xs' = length xs /\
    forall (k : nat) (x n : R),
      xs !! k = Some (Fin x) -> ns !! k = Some (Fin n) ->
      xs' !! k = Some (Fin (x + n)).
Proof.
  intros Hp Hn Hlen. exists (zip_with fadd xs ns). split; [| split].
  - apply update_equal_shapes; assumption.
  - rewrite length_zip_with. lia.
  - intros k x n. apply zip_with_fadd_lookup.
Qed.

Lemma update_adds_noise_witness :
  exists xs',
    Model.update demo_model 4 None 0 5 demo_heap
    = Ret (tt, <[4%positive := xs']> demo_heap) /\
    length xs' = 2%nat /\
    forall (k : nat) (x n : R),
      [Fin 1; Fin 2] !! k = Some (Fin x) -> [Fin 10; Fin 20] !! k = Some (Fin n) ->
      xs' !! k = Some (Fin (x + n)).
Proof.
  apply (update_adds_noise demo_model 4 5 None 0 demo_heap
           [Fin 1; Fin 2] [Fin 10; Fin 20]); reflexivity.
Defined.

(** ** The model: effects on the store *)

(** Unfolds a run of binds that returns into its steps. *)
Ltac returns_steps :=
  repeat match goal with
    | H : returns (bind _ _ _) (_, _) |- _ =>
        apply returns_bind in H; destruct H as (? & ? & ? & H)
    | H : returns (ret _ _) (_, _) |- _ =>
        apply returns_ret in H; destruct H as [? ?]; subst
    | H : returns (lift _ _) (_, _) |- _ =>
        apply returns_lift in H; destruct H as [? ?]; subst
    | H : returns (read _ _) (_, _) |- _ =>
        apply returns_read in H; destruct H as [? ?]; subst
    | H : returns (np_random_call _ _) (_, _) |- _ =>
        apply returns_np_random_call in H; subst
    | H : returns (new_array _ _) (_, _) |- _ =>
        apply returns_new_array in H; destruct H as [? ?]; subst
    | H : returns (write _ _ _) (_, _) |- _ =>
        apply returns_write in H; subst
    | H : returns (raise _ _) _ |- _ =>
        apply returns_inv in H; destruct H
    end.

Lemma create_initial_estimate_allocates (self : Model.t) (N : Z) (h h' : heap) (r : ref) :
  returns (Model.create_initial_estimate self N h) (r, h') ->
  h !! r = None /\ exists xs, h' = <[r := xs]> h.
Proof.
  unfold Model.create_initial_estimate. intros Hr. returns_steps.
  split; [assumption | eexists; reflexivity].
Qed.




Lemma update_writes_particles (self : Model.t) (particles noise : ref)
    (u : option float) (t : Z) (h h' : heap) (x : unit) :
  returns (Model.update self particles u t noise h) (x, h') ->
  exists ps ns ps',
    h !! particles = Some ps /\ h !! noise = Some ns /\
    np_inplace fadd ps ns = inr ps' /\ h' = <[particles := ps']> h.
Proof.
  unfold Model.update. intros Hr. returns_steps.
  eexists _, _, _. repeat split; eassumption.
Qed.




(** ** The model: construction and sampling *)

(** [Model(P0, Q, R)] succeeds whenever the array [R] exists: the three
    attributes are new arrays holding the arguments' values. *)
Lemma Model_init_returns (P0 Q : float) (R : ref) (h : heap) (Rv : list float) :
  h !! R = Some Rv ->
  exists (m : Model.t) (h1 : heap),
    Model.__init__ P0 Q R h = Ret (m, h1) /\
    h ⊆ h1 /\
    h !! Model.P0 m = None /\ h !! Model.Q m = None /\ h !! Model.R m = None /\
    h1 !! Model.P0 m = Some [P0] /\
    h1 !! Model.Q m = Some [Q] /\
    h1 !! Model.R m = Some Rv.
Proof.
  intros HR.
  set (p := fresh (dom h)).
  set (hp := <[p := [P0]]> h).
  set (q := fresh (dom hp)).
  set (hq := <[q := [Q]]> hp).
  set (r := fresh (dom hq)).
  set (hr := <[r := Rv]> hq).
  assert (Hp : h !! p = None) by (apply not_elem_of_dom, is_fresh).
  assert (Hq : hp !! q = None) by (apply not_elem_of_dom, is_fresh).
  assert (Hr : hq !! r = None) by (apply not_elem_of_dom, is_fresh).
  assert (Hhp : h ⊆ hp) by (apply insert_subseteq; exact Hp).
  assert (Hhq : hp ⊆ hq) by (apply insert_subseteq; exact Hq).
  assert (Hhr : hq ⊆ hr) by (apply insert_subseteq; exact Hr).
  assert (HRq : hq !! R = Some Rv).
  { eapply lookup_weaken; [| exact Hhq]. eapply lookup_weaken; [exact HR | exact Hhp]. }
  exists (Model.mk p q r), hr. split; [| split].
  - unfold Model.__init__, bind, new_array, read. simpl.
    fold p. fold hp. fold q. fold hq. rewrite HRq. reflexivity.
  - etransitivity; [exact Hhp |]. etransitivity; [exact Hhq | exact Hhr].
  - simpl. repeat split.
    + exact Hp.
    + destruct (h !! q) as [v |] eqn:E; [| reflexivity].
      apply (lookup_weaken _ _ _ _ E) in Hhp. congruence.
    + destruct (h !! r) as [v |] eqn:E; [| reflexivity].
      apply (lookup_weaken _ _ _ _ E) in Hhp.
      apply (lookup_weaken _ _ _ _ Hhp) in Hhq. congruence.
    + eapply lookup_weaken; [| exact Hhr]. eapply lookup_weaken; [| exact Hhq].
      apply lookup_insert_eq.
    + eapply lookup_weaken; [| exact Hhr]. apply lookup_insert_eq.
    + apply lookup_insert_eq.
Qed.

(** The first thing [create_initial_estimate] does is to ask the sampler
    for [N] normal draws, with the stored [P0] as the scale. *)
Lemma create_initial_estimate_draw (self : Model.t) (N : Z) (h : heap) (s : float) :
  h !! Model.P0 self = Some [s] ->
  Model.create_initial_estimate self N h
  = Draw (normal (Fin 0) s N) (fun xs => new_array xs h).
Proof.
  intros HP. unfold Model.create_initial_estimate, bind, read.
  rewrite HP. reflexivity.
Qed.

Lemma sample_process_noise_draw (self : Model.t) (particles : ref)
    (u : option float) (t : Z) (h : heap) (ps : list float) (s : float) :
  h !! particles = Some ps -> h !! Model.Q self = Some [s] ->
  Model.sample_process_noise self particles u t h
  = Draw (normal (Fin 0) s (Z.of_nat (length ps))) (fun xs => new_array xs h).
Proof.
  intros Hp HQ. unfold Model.sample_process_noise, bind, read.
  rewrite Hp. simpl. rewrite HQ. reflexivity.
Qed.

Lemma sqrt_of_default_variance : (2 / 100 <> sqrt (2 / 100))%R.
Proof.
  intros Heq.
  assert (Hs : (sqrt (2 / 100) * sqrt (2 / 100) = 2 / 100)%R)
    by (apply sqrt_sqrt; lra).
  rewrite <- Heq in Hs. lra.
Qed.

(** C3, on the code.  The model built from the default variances 0.02 asks
    numpy for normal draws of scale 0.02, for the initial particles and for
    the process noise alike: the configured variance itself is passed as the
    standard deviation, not its square root. *)
Theorem sampler_scale_is_the_variance :
  exists (m : Model.t) (h1 : heap) (k1 k2 : list float -> py (ref * heap)),
    Model.__init__ (Fin (2 / 100)) (Fin (2 / 100)) 3 demo_heap = Ret (m, h1) /\
    Model.create_initial_estimate m 80 h1
    = Draw (normal (Fin 0) (Fin (2 / 100)) 80) k1 /\
    Model.sample_process_noise m 4 None 0 h1
    = Draw (normal (Fin 0) (Fin (2 / 100)) 2) k2 /\
    Fin (2 / 100) <> Fin (sqrt (2 / 100)).
Proof.
  destruct (Model_init_returns (Fin (2 / 100)) (Fin (2 / 100)) 3 demo_heap
              [Fin (6 / 100)] eq_refl)
    as (m & h1 & Hinit & Hsub & _ & _ & _ & HP & HQ & _).
  exists m, h1. eexists. eexists. split; [exact Hinit |]. split; [| split].
  - apply create_initial_estimate_draw. exact HP.
  - apply (sample_process_noise_draw m 4 None 0 h1 [Fin 1; Fin 2]).
    + eapply lookup_weaken; [| exact Hsub]. reflexivity.
    + exact HQ.
  - intros Heq. injection Heq as Heq. exact (sqrt_of_default_variance Heq).
Qed.

(** ** The model: densities *)

Lemma ln_sqrt_half (a : R) : (0 < a)%R -> (2 * ln (sqrt a) = ln a)%R.
Proof.
  intros Ha.
  assert (Hs : (0 < sqrt a)%R) by (apply sqrt_lt_R0; exact Ha).
  rewrite <- (sqrt_sqrt a) at 2 by lra.
  rewrite ln_mult by exact Hs. lra.
Qed.

Lemma ln_normal_pdf (mean var x : R) :
  (0 < var)%R ->
  ln (normal_pdf mean var x)
  = (- (1 / 2) * (ln (2 * PI) + ln var + (x - mean) * (x - mean) / var))%R.
Proof.
  intros Hv. unfold normal_pdf.
  assert (Hpi : (0 < 2 * PI)%R) by (pose proof PI_RGT_0; lra).
  assert (Ha : (0 < 2 * PI * var)%R) by (apply Rmult_lt_0_compat; assumption).
  assert (Hs : (0 < sqrt (2 * PI * var))%R) by (apply sqrt_lt_R0; exact Ha).
  rewrite ln_mult; [| apply Rinv_0_lt_compat; exact Hs | apply exp_pos].
  rewrite ln_Rinv by exact Hs. rewrite ln_exp.
  pose proof (ln_sqrt_half _ Ha) as Hhalf.
  rewrite ln_mult in Hhalf by assumption.
  replace ((x - mean) * (x - mean) / (2 * var))%R
    with (1 / 2 * ((x - mean) * (x - mean) / var))%R by (field; lra).
  lra.
Qed.

Lemma kalman_formulas_lognormal : kalman_lognormal (kalman := kalman_formulas).
Proof.
  intros e v Hv. simpl. unfold lognormpdf_scalar_formula, lognormpdf_formula.
  destruct (Rlt_dec 0 v) as [_ | Hn]; [| contradiction].
  unfold lognormal_formula. rewrite ln_normal_pdf by exact Hv.
  replace (e - 0)%R with e by lra. split; reflexivity.
Qed.

(** The density of an error [x - y] around 0 is the density of [y] around
    [x], and of [x] around [y]. *)
Lemma normal_pdf_error (x var y : R) :
  normal_pdf 0 var (x + - y) = normal_pdf x var y /\
  normal_pdf 0 var (x + - y) = normal_pdf y var x.
Proof.
  unfold normal_pdf. split.
  - replace ((x + - y - 0) * (x + - y - 0))%R with ((y - x) * (y - x))%R by ring.
    reflexivity.
  - replace ((x + - y - 0) * (x + - y - 0))%R with ((x - y) * (x - y))%R by ring.
    reflexivity.
Qed.

Lemma mapM_measure {kalman : Kalman} (r y : R) (xs : list R) :
  kalman_lognormal -> (0 < r)%R ->
  mapM (fun x => match item [Fin r] with
                 | inl e => inl e
                 | inr var => lognormpdf_scalar (fsub x (Fin y)) var
                 end) (map Fin xs)
  = inr (map (fun x => Fin (ln (normal_pdf x r y))) xs).
Proof.
  intros HK Hr. induction xs as [| x xs IH]; simpl; [reflexivity |].
  destruct (HK (x + - y)%R r Hr) as [-> _].
  simpl in IH. rewrite IH.
  destruct (normal_pdf_error x r y) as [-> _]. reflexivity.
Qed.

Lemma mapM_transition {kalman : Kalman} (q : R) (xs_next xs_prev : list R) :
  kalman_lognormal -> (0 < q)%R ->
  mapM (fun d => match item [Fin q] with
                 | inl e => inl e
                 | inr var => lognormpdf d var
                 end) (zip_with fsub (map Fin xs_next) (map Fin xs_prev))
  = inr (zip_with (fun xn xp => Fin (ln (normal_pdf xp q xn))) xs_next xs_prev).
Proof.
  intros HK Hq. revert xs_prev.
  induction xs_next as [| xn xs_next IH]; intros [| xp xs_prev]; simpl;
    try reflexivity.
  destruct (HK (xn + - xp)%R q Hq) as [_ ->].
  simpl in IH. rewrite IH.
  destruct (normal_pdf_error xn q xp) as [_ ->]. reflexivity.
Qed.

(** C7.  With pyparticleest's two functions computing the log-density of a
    centred normal law, and positive variances [r] and [q] stored in the
    model: [measure] returns, particle by particle, the log of the normal
    density of the measurement [y] with the particle as mean and [r] as
    variance; [logp_xnext_full] returns, entry by entry, the log of the
    normal density of the next state with the particle as mean and [q] as
    variance. *)
Theorem model_log_densities {kalman : Kalman} (self : Model.t) (h : heap) (r q : R) :
  kalman_lognormal ->
  h !! Model.R self = Some [Fin r] -> h !! Model.Q self = Some [Fin q] ->
  (0 < r)%R -> (0 < q)%R ->
  (forall (particles : ref) (xs : list R) (y : R) (t : Z),
      h !! particles = Some (map Fin xs) ->
      exists out : ref,
        h !! out = None /\
        Model.measure self particles (Fin y) t h
        = Ret (out, <[out := map (fun x => Fin (ln (normal_pdf x r y))) xs]> h)) /\
  (forall (part : ref) (step : pf.TrajectoryStep) (rest : list pf.TrajectoryStep)
          (find : list Z) (future : list float) (xs_next xs_prev : list R),
      h !! part = Some (map Fin xs_prev) ->
      h !! pf.part (pf.pa step) = Some future ->
      np_take future find = inr (map Fin xs_next) ->
      length xs_next = length xs_prev ->
      exists out : ref,
        h !! out = None /\
        Model.logp_xnext_full self part (step :: rest) find h
        = Ret (out, <[out := zip_with (fun xn xp => Fin (ln (normal_pdf xp q xn)))
                               xs_next xs_prev]> h)).
Proof.
  intros HK HR HQ Hr Hq. split.
  - intros particles xs y t Hp. exists (fresh (dom h)).
    split; [apply not_elem_of_dom, is_fresh |].
    unfold Model.measure, bind, read. rewrite Hp. cbn [py_bind fst snd].
    rewrite HR. cbn [py_bind fst snd].
    rewrite (mapM_measure r y xs HK Hr). reflexivity.
  - intros part step rest find future xs_next xs_prev Hp Hf Htake Hlen.
    exists (fresh (dom h)). split; [apply not_elem_of_dom, is_fresh |].
    unfold Model.logp_xnext_full, bind, read. rewrite Hf. cbn [py_bind fst snd].
    rewrite Htake. cbn [py_bind fst snd lift ret]. rewrite Hp.
    cbn [py_bind fst snd]. unfold np_binary.
    destruct (decide (length (map Fin xs_next) = length (map Fin xs_prev)))
      as [_ | Hne]; [| rewrite !length_map in Hne; contradiction].
    cbn [py_bind fst snd lift ret]. rewrite HQ. cbn [py_bind fst snd].
    rewrite (mapM_transition q xs_next xs_prev HK Hq). reflexivity.
Qed.

(** Two forward particles 1 and 2 (array 4), two trajectory values 10 and 20
    (array 5, both selected by [find]), measurement 3. *)
Lemma model_log_densities_witness :
  (forall (particles : ref) (xs : list R) (y : R) (t : Z),
      demo_heap !! particles = Some (map Fin xs) ->
      exists out : ref,
        demo_heap !! out = None /\
        Model.measure (kalman := kalman_formulas) demo_model particles (Fin y) t demo_heap
        = Ret (out, <[out := map (fun x => Fin (ln (normal_pdf x (6 / 100) y))) xs]>
                      demo_heap)) /\
  (forall (part : ref) (step : pf.TrajectoryStep) (rest : list pf.TrajectoryStep)
          (find : list Z) (future : list float) (xs_next xs_prev : list R),
      demo_heap !! part = Some (map Fin xs_prev) ->
      demo_heap !! pf.part (pf.pa step) = Some future ->
      np_take future find = inr (map Fin xs_next) ->
      length xs_next = length xs_prev ->
      exists out : ref,
        demo_heap !! out = None /\
        Model.logp_xnext_full (kalman := kalman_formulas) demo_model part
          (step :: rest) find demo_heap
        = Ret (out, <[out := zip_with (fun xn xp => Fin (ln (normal_pdf xp (2 / 100) xn)))
                               xs_next xs_prev]> demo_heap)).
Proof.
  apply (model_log_densities (kalman := kalman_formulas) demo_model demo_heap
           (6 / 100) (2 / 100)).
  - exact kalman_formulas_lognormal.
  - reflexivity.
  - reflexivity.
  - lra.
  - lra.
Defined.

(** ** The preprocessor *)

Section process.
Context {kalman : Kalman} {sim : Simulator}.

(** No statement of [__process__] comes before the model is built, which
    raises nothing, and the simulator is run on it. *)
Lemma process_after_model (self : ParticleFilter.t) (data : pd.Series_t)
    (h : heap) (rv : list float) :
  h !! ParticleFilter.R self = Some rv ->
  exists (m : Model.t) (h1 : heap),
    Model.__init__ (ParticleFilter.P0 self) (ParticleFilter.Q self)
      (ParticleFilter.R self) h = Ret (m, h1) /\
    h ⊆ h1 /\
    h1 !! Model.P0 m = Some [ParticleFilter.P0 self] /\
    h1 !! Model.Q m = Some [ParticleFilter.Q self] /\
    h1 !! Model.R m = Some rv /\
    ParticleFilter.__process__ self data h = after_model self data m h1.
Proof.
  intros HR.
  destruct (Model_init_returns (ParticleFilter.P0 self) (ParticleFilter.Q self)
              (ParticleFilter.R self) h rv HR)
    as (m & h1 & Hinit & Hsub & _ & _ & _ & HP & HQ & HRm).
  exists m, h1. repeat (split; [assumption |]).
  unfold ParticleFilter.__process__, ParticleFilter.simulate_data, bind.
  rewrite Hinit. reflexivity.
Qed.

End process.

(** The simulator [recorded_run st], on measurements that are not empty,
    starts with the draw of the initial particles. *)
Lemma recorded_run_first_draw {kalman : Kalman} (st : recorded)
    (self : ParticleFilter.t) (data : pd.Series_t) (h : heap)
    (rv : list float) (y : float) (ys : list float) :
  h !! ParticleFilter.R self = Some rv ->
  h !! pd.values data = Some (y :: ys) ->
  exists k : list float -> py (pd.Series_t * heap),
    ParticleFilter.__process__ (sim := recorded_run st) self data h
    = Draw (normal (Fin 0) (ParticleFilter.P0 self) (ParticleFilter.num_particles self)) k.
Proof.
  intros HR Hy.
  destruct (process_after_model (sim := recorded_run st) self data h rv HR)
    as (m & h1 & _ & Hsub & HP & _ & _ & ->).
  assert (Hy1 : h1 !! pd.values data = Some (y :: ys))
    by (eapply lookup_weaken; [exact Hy | exact Hsub]).
  unfold after_model. cbn [simulate recorded_run]. unfold bind at 1, read.
  rewrite Hy1. cbn [py_bind fst snd]. unfold bind at 1.
  cbn [Model.as_ParticleFiltering interfaces.create_initial_estimate].
  rewrite (create_initial_estimate_draw m _ h1 _ HP).
  eexists. reflexivity.
Qed.

Lemma ParticleFilter_init_returns (N M : Z) (P0 Q R : float) (h : heap) :
  ParticleFilter.__init__ N M P0 Q R h
  = Ret (ParticleFilter.mk N M P0 Q (fresh (dom h)), <[fresh (dom h) := [R]]> h).
Proof. reflexivity. Qed.

Lemma Draw_not_raises {A : Type} (c : np_random) (k : list float -> py A) :
  ~ raises (Draw c k).
Proof. intros [e He]. discriminate He. Qed.

Lemma Ret_not_raises {A : Type} (a : A) : ~ raises (Ret a).
Proof. intros [e He]. discriminate He. Qed.

(** C2, as the code has it.  The constructor accepts every configuration,
    valid or not, and stores the five values as given.  [__process__] checks
    none of them: it builds the model, whose arrays hold the variances as
    given, and its next step is the run of the simulator on that model with
    the two counts as given.  Neither method raises a configuration error
    of its own. *)
Theorem configuration_is_not_validated {kalman : Kalman} {sim : Simulator}
    (N M : Z) (P0 Q R : float) (h : heap) (data : pd.Series_t) :
  exists (self : ParticleFilter.t) (h' : heap) (m : Model.t) (h1 : heap),
    ParticleFilter.__init__ N M P0 Q R h = Ret (self, h') /\
    ParticleFilter.num_particles self = N /\
    ParticleFilter.num_smoothers self = M /\
    ParticleFilter.P0 self = P0 /\
    ParticleFilter.Q self = Q /\
    h' !! ParticleFilter.R self = Some [R] /\
    Model.__init__ P0 Q (ParticleFilter.R self) h' = Ret (m, h1) /\
    h1 !! Model.P0 m = Some [P0] /\
    h1 !! Model.Q m = Some [Q] /\
    h1 !! Model.R m = Some [R] /\
    ParticleFilter.__process__ self data h'
    = py_bind
        (simulate (Model.as_ParticleFiltering m) (pd.values data) N M
           "PF" "full" false h1)
        (fun sh => ParticleFilter.filtered_series (fst sh) data (snd sh)).
Proof.
  assert (HR : <[fresh (dom h) := [R]]> h !! fresh (dom h) = Some [R])
    by apply lookup_insert_eq.
  destruct (process_after_model (ParticleFilter.mk N M P0 Q (fresh (dom h)))
              data _ [R] HR) as (m & h1 & Hinit & _ & HP & HQ & HRm & Hp).
  exists (ParticleFilter.mk N M P0 Q (fresh (dom h))), (<[fresh (dom h) := [R]]> h),
    m, h1.
  split; [apply ParticleFilter_init_returns |].
  cbn [ParticleFilter.num_particles ParticleFilter.num_smoothers
       ParticleFilter.P0 ParticleFilter.Q ParticleFilter.R] in *.
  repeat (split; [reflexivity || assumption |]).
  exact Hp.
Qed.

(** C2, as stated, fails: with a negative process variance the constructor
    returns, and [__process__], on a series of two samples, starts by
    sampling the 80 initial particles. *)
Lemma invalid_configuration_is_accepted :
  invalid_configuration 80 40 (Fin (2 / 100)) (Fin (-1)) (Fin (6 / 100)) /\
  exists (self : ParticleFilter.t) (h' : heap)
         (k : list float -> py (pd.Series_t * heap)),
    ParticleFilter.__init__ 80 40 (Fin (2 / 100)) (Fin (-1)) (Fin (6 / 100)) demo_heap
    = Ret (self, h') /\
    ParticleFilter.__process__ (kalman := kalman_formulas)
      (sim := recorded_run long_recorded) self demo_series h'
    = Draw (normal (Fin 0) (Fin (2 / 100)) 80) k /\
    ~ raises (ParticleFilter.__init__ 80 40 (Fin (2 / 100)) (Fin (-1)) (Fin (6 / 100))
                demo_heap) /\
    ~ raises (ParticleFilter.__process__ (kalman := kalman_formulas)
                (sim := recorded_run long_recorded) self demo_series h').
Proof.
  split.
  - right. left. simpl. lra.
  - set (self := ParticleFilter.mk 80 40 (Fin (2 / 100)) (Fin (-1))
                   (fresh (dom demo_heap))).
    set (h' := <[fresh (dom demo_heap) := [Fin (6 / 100)]]> demo_heap).
    assert (HR : h' !! ParticleFilter.R self = Some [Fin (6 / 100)])
      by apply lookup_insert_eq.
    assert (Hy : h' !! pd.values demo_series = Some [Fin 1; Fin 2])
      by reflexivity.
    destruct (recorded_run_first_draw (kalman := kalman_formulas) long_recorded
                self demo_series h' _ _ _ HR Hy) as (k & Hp).
    exists self, h', k. split; [reflexivity |]. split; [exact Hp |]. split.
    + apply Ret_not_raises.
    + rewrite Hp. apply Draw_not_raises.
Qed.

(** C5, as the code has it.  [__process__] looks at no value of the input:
    whatever the values, finite or not, it builds the model and runs the
    simulator on the series' own array, which holds then what it held when
    [__process__] was called. *)
Theorem input_values_are_not_validated {kalman : Kalman} {sim : Simulator}
    (self : ParticleFilter.t) (data : pd.Series_t) (h : heap)
    (rv ys : list float) :
  h !! ParticleFilter.R self = Some rv ->
  h !! pd.values data = Some ys ->
  exists (m : Model.t) (h1 : heap),
    Model.__init__ (ParticleFilter.P0 self) (ParticleFilter.Q self)
      (ParticleFilter.R self) h = Ret (m, h1) /\
    h1 !! pd.values data = Some ys /\
    ParticleFilter.__process__ self data h
    = py_bind
        (simulate (Model.as_ParticleFiltering m) (pd.values data)
           (ParticleFilter.num_particles self) (ParticleFilter.num_smoothers self)
           "PF" "full" false h1)
        (fun sh => ParticleFilter.filtered_series (fst sh) data (snd sh)).
Proof.
  intros HR Hy.
  destruct (process_after_model self data h rv HR)
    as (m & h1 & Hinit & Hsub & _ & _ & _ & Hp).
  exists m, h1. split; [exact Hinit |]. split; [| exact Hp].
  eapply lookup_weaken; [exact Hy | exact Hsub].
Qed.

Lemma input_values_are_not_validated_witness :
  exists (m : Model.t) (h1 : heap),
    Model.__init__ (Fin (2 / 100)) (Fin (2 / 100)) 2 nan_init_heap = Ret (m, h1) /\
    h1 !! 1%positive = Some [Fin 1; NaN; PInf] /\
    ParticleFilter.__process__ (kalman := kalman_formulas)
      (sim := recorded_run nan_recorded) nan_self nan_series nan_init_heap
    = py_bind
        (simulate (Simulator := recorded_run nan_recorded)
           (Model.as_ParticleFiltering (kalman := kalman_formulas) m) 1 80 40
           "PF" "full" false h1)
        (fun sh => ParticleFilter.filtered_series (sim := recorded_run nan_recorded)
                     (fst sh) nan_series (snd sh)).
Proof.
  apply (input_values_are_not_validated (kalman := kalman_formulas)
           (sim := recorded_run nan_recorded) nan_self nan_series nan_init_heap
           [Fin (6 / 100)] [Fin 1; NaN; PInf]); reflexivity.
Defined.

(** C5, as stated, fails: a series holding [nan] and [inf] is not rejected;
    the run starts sampling. *)
Lemma non_finite_input_is_accepted :
  has_non_finite [Fin 1; NaN; PInf] /\
  nan_init_heap !! pd.values nan_series = Some [Fin 1; NaN; PInf] /\
  ParticleFilter.__init__ 80 40 (Fin (2 / 100)) (Fin (2 / 100)) (Fin (6 / 100)) nan_heap
  = Ret (nan_self, nan_init_heap) /\
  ~ raises (ParticleFilter.__process__ (kalman := kalman_formulas)
              (sim := recorded_run nan_recorded) nan_self nan_series
              nan_init_heap) /\
  exists k : list float -> py (pd.Series_t * heap),
    ParticleFilter.__process__ (kalman := kalman_formulas)
      (sim := recorded_run nan_recorded) nan_self nan_series nan_init_heap
    = Draw (normal (Fin 0) (Fin (2 / 100)) 80) k.
Proof.
  assert (HR : nan_init_heap !! ParticleFilter.R nan_self = Some [Fin (6 / 100)])
    by reflexivity.
  assert (Hy : nan_init_heap !! pd.values nan_series = Some [Fin 1; NaN; PInf])
    by reflexivity.
  destruct (recorded_run_first_draw (kalman := kalman_formulas) nan_recorded
              nan_self nan_series _ _ _ _ HR Hy) as (k & Hp).
  split; [| split; [| split; [| split]]].
  - exists NaN. split; [| reflexivity]. apply list_elem_of_In. simpl. auto.
  - reflexivity.
  - reflexivity.
  - rewrite Hp. apply Draw_not_raises.
  - exists k. exact Hp.
Qed.

(** ** The preprocessor: what is returned *)

Lemma Model_init_frame (P0 Q : float) (R : ref) (h h1 : heap) (m : Model.t) :
  returns (Model.__init__ P0 Q R h) (m, h1) -> h ⊆ h1.
Proof.
  unfold Model.__init__. intros Hr. returns_steps.
  etransitivity; [apply insert_subseteq; eassumption |].
  etransitivity; [apply insert_subseteq; eassumption |].
  apply insert_subseteq. assumption.
Qed.

Lemma column0_length (a : list (list float)) (col : list float) :
  column0 a = inr col -> length col = length a.
Proof.
  unfold column0. revert col.
  induction a as [| row a IH]; simpl; intros col Hc.
  - injection Hc as <-. reflexivity.
  - destruct row as [| x row]; [discriminate |].
    destruct (mapM _ a) as [e | bs]; [discriminate |].
    injection Hc as <-. simpl. f_equal. apply IH. reflexivity.
Qed.

(** [pd.Series] on a new array of the given entries. *)
Lemma Series_of_new_array (col : list float) (index_ : list Z) (name_ : string)
    (h : heap) :
  (particle_filtered <- new_array col ;; pd.Series particle_filtered index_ name_) h
  = if decide (length col = length index_)
    then Ret (pd.mk (fresh (dom h)) index_ (Some name_), <[fresh (dom h) := col]> h)
    else Raise ValueError.
Proof.
  unfold bind, new_array, pd.Series, bind, read. cbn [py_bind fst snd].
  rewrite lookup_insert_eq. cbn [py_bind fst snd].
  destruct (decide (length col = length index_)); reflexivity.
Qed.

Section returned_series.
Context {kalman : Kalman} {sim : Simulator}.

(** What building the series comes to, the filtered mean known. *)
Lemma filtered_series_outcome (st : sim_state) (data : pd.Series_t) (h : heap)
    (vals : list (list float)) :
  get_filtered_mean st = inr vals ->
  ParticleFilter.filtered_series st data h
  = match column0 vals with
    | inl e => Raise e
    | inr col =>
        if decide (length col = length (pd.index data))
        then Ret (pd.mk (fresh (dom h)) (pd.index data) (Some "filtered_eda"%string),
                  <[fresh (dom h) := col]> h)
        else Raise ValueError
    end.
Proof.
  intros Hv. unfold ParticleFilter.filtered_series.
  unfold bind at 1. rewrite Hv. cbn [lift ret py_bind fst snd].
  unfold bind at 1. destruct (column0 vals) as [e | col]; [reflexivity |].
  cbn [lift ret py_bind fst snd]. apply Series_of_new_array.
Qed.

(** The series is built from column 0 of the simulator's filtered mean, and
    only if that column has as many entries as the index of the input. *)
Lemma filtered_series_returns (st : sim_state) (data out : pd.Series_t) (h h' : heap) :
  returns (ParticleFilter.filtered_series st data h) (out, h') ->
  exists (vals : list (list float)) (col : list float),
    get_filtered_mean st = inr vals /\
    column0 vals = inr col /\
    length col = length (pd.index data) /\
    h !! pd.values out = None /\
    h' = <[pd.values out := col]> h /\
    pd.index out = pd.index data /\
    pd.name out = Some "filtered_eda"%string.
Proof.
  intros Hr.
  destruct (get_filtered_mean st) as [e | vals] eqn:Hv.
  - unfold ParticleFilter.filtered_series, bind in Hr. rewrite Hv in Hr.
    apply returns_inv in Hr. destruct Hr.
  - rewrite (filtered_series_outcome st data h vals Hv) in Hr.
    destruct (column0 vals) as [e | col] eqn:Hc;
      [apply returns_inv in Hr; destruct Hr |].
    destruct (decide (length col = length (pd.index data))) as [Hlen | Hlen];
      [| apply returns_inv in Hr; destruct Hr].
    apply returns_inv in Hr. injection Hr as <- <-.
    exists vals, col. cbn [pd.values pd.index pd.name].
    repeat (split; [reflexivity || assumption |]).
    split; [apply not_elem_of_dom, is_fresh |].
    repeat (split; [reflexivity |]). reflexivity.
Qed.

Lemma filtered_series_length_mismatch (st : sim_state) (data : pd.Series_t)
    (h : heap) (vals : list (list float)) (col : list float) :
  get_filtered_mean st = inr vals -> column0 vals = inr col ->
  length col <> length (pd.index data) ->
  ParticleFilter.filtered_series st data h = Raise ValueError.
Proof.
  intros Hv Hc Hlen. rewrite (filtered_series_outcome st data h vals Hv), Hc.
  destruct (decide (length col = length (pd.index data))); [contradiction |].
  reflexivity.
Qed.

Lemma process_returns (self : ParticleFilter.t) (data out : pd.Series_t) (h h' : heap) :
  returns (ParticleFilter.__process__ self data h) (out, h') ->
  exists (st : sim_state) (h1 : heap),
    returns (ParticleFilter.simulate_data self data h) (st, h1) /\
    returns (ParticleFilter.filtered_series st data h1) (out, h').
Proof.
  unfold ParticleFilter.__process__. intros Hr.
  apply returns_bind in Hr. exact Hr.
Qed.

(** With a library that does not write the measurements, the simulator run
    leaves the array of the input as it was. *)
Lemma simulate_data_keeps_input (self : ParticleFilter.t) (data : pd.Series_t)
    (h h1 : heap) (st : sim_state) (ys : list float) :
  keeps_measurements ->
  h !! pd.values data = Some ys ->
  returns (ParticleFilter.simulate_data self data h) (st, h1) ->
  h1 !! pd.values data = Some ys.
Proof.
  intros Hkeep Hy. unfold ParticleFilter.simulate_data. intros Hr.
  apply returns_bind in Hr. destruct Hr as (m & hm & Hinit & Hr).
  apply Model_init_frame in Hinit.
  rewrite (Hkeep _ _ _ _ _ _ _ _ _ _ Hr).
  eapply lookup_weaken; [exact Hy | exact Hinit].
Qed.

End returned_series.

(** A run of [recorded_run st] that returns has read measurements that are
    not empty, has made one new array, and ends in the state [st]. *)
Lemma recorded_run_returns {kalman : Kalman} (st0 : recorded) (m : Model.t)
    (y : ref) (N M : Z) (f s : string) (mf : bool) (h h' : heap) (st : recorded) :
  returns (simulate (Simulator := recorded_run st0) (Model.as_ParticleFiltering m)
             y N M f s mf h) (st, h') ->
  st = st0 /\
  exists (p : ref) (xs : list float) (y0 : float) (ys : list float),
    h !! y = Some (y0 :: ys) /\ h !! p = None /\ h' = <[p := xs]> h.
Proof.
  cbn [simulate recorded_run]. intros Hr.
  apply returns_bind in Hr. destruct Hr as (ys & h0 & Hread & Hr).
  apply returns_read in Hread. destruct Hread as [Hy ->].
  destruct ys as [| y0 ys]; [apply returns_inv in Hr; destruct Hr |].
  apply returns_bind in Hr. destruct Hr as (p & hp & Hcie & Hr).
  cbn [Model.as_ParticleFiltering interfaces.create_initial_estimate] in Hcie.
  apply create_initial_estimate_allocates in Hcie.
  destruct Hcie as (Hfresh & xs & ->).
  apply returns_ret in Hr. destruct Hr as [<- <-].
  split; [reflexivity |]. exists p, xs, y0, ys. auto.
Qed.

Lemma recorded_run_simulate_data {kalman : Kalman} (st0 : recorded)
    (self : ParticleFilter.t) (data : pd.Series_t) (h h1 : heap) (st : recorded) :
  returns (ParticleFilter.simulate_data (sim := recorded_run st0) self data h)
          (st, h1) ->
  st = st0.
Proof.
  unfold ParticleFilter.simulate_data. intros Hr.
  apply returns_bind in Hr. destruct Hr as (m & hm & _ & Hr).
  apply recorded_run_returns in Hr. apply Hr.
Qed.

Lemma demo_process_returns :
  returns (ParticleFilter.__process__ (kalman := kalman_formulas)
             (sim := recorded_run demo_recorded) demo_self demo_series demo_heap)
          (demo_out, demo_final_heap).
Proof.
  apply (returns_Draw (normal (Fin 0) (Fin (2 / 100)) 2) _ [Fin 0; Fin 0]).
  apply returns_Ret.
Qed.

Lemma recorded_run_keeps_measurements (st : recorded) :
  keeps_measurements (kalman := kalman_formulas) (sim := recorded_run st).
Proof.
  intros m y N M f s mf h h' st' Hr.
  apply recorded_run_returns in Hr.
  destruct Hr as (_ & p & xs & y0 & ys & Hy & Hp & ->).
  apply lookup_insert_ne. congruence.
Qed.

(** The smoothed estimates of the simulator are not read. *)
Lemma process_ignores_smoothed_estimates {kalman : Kalman} (sim : Simulator)
    (other : sim_state -> list (list float)) (self : ParticleFilter.t)
    (data : pd.Series_t) (h : heap) :
  ParticleFilter.__process__ (sim := with_smoothed_estimates sim other) self data h
  = ParticleFilter.__process__ (sim := sim) self data h.
Proof. reflexivity. Qed.

(** The run of [demo_self] over the two samples of [demo_series], the
    simulator leaving three rows of filtered means. *)
Lemma demo_run_raises :
  run (np := counting_generator)
    (ParticleFilter.__process__ (kalman := kalman_formulas)
       (sim := recorded_run long_recorded) demo_self demo_series demo_heap) 0%nat
  = (inl ValueError, 1%nat).
Proof. reflexivity. Qed.

(** C1, on a series of two samples.  The simulator has run the smoother, and
    its two backward trajectories have the means 0, 3/2 and 7/2; the column
    the code takes is that of the filtered means 0, 2 and 4.  Whatever the
    smoother has produced, the run is the same, and it ends in [ValueError]:
    the smoothed estimates are not read, and no sequence is returned. *)
Theorem smoothed_estimates_are_not_read :
  smoothed_estimate (sim := recorded_run long_recorded) long_recorded
  = [Fin ((0 + 0 + 0) / INR 2); Fin ((0 + 1 + 2) / INR 2); Fin ((0 + 3 + 4) / INR 2)] /\
  column0 (recorded_filtered_mean long_recorded) = inr [Fin 0; Fin 2; Fin 4] /\
  forall other : recorded -> list (list float),
    run (np := counting_generator)
      (ParticleFilter.__process__ (kalman := kalman_formulas)
         (sim := with_smoothed_estimates (recorded_run long_recorded) other)
         demo_self demo_series demo_heap) 0%nat
    = (inl ValueError, 1%nat).
Proof.
  split; [reflexivity |]. split; [reflexivity |].
  intros other. rewrite process_ignores_smoothed_estimates. exact demo_run_raises.
Qed.

(** C4, as the code has it.  When every run of the simulator on the input
    leaves one row of filtered means more than the input has index entries,
    as pyparticleest does with [meas_first=False], no run of [__process__]
    returns a series: the output has neither the length nor the index of the
    input, there is none. *)
Theorem process_returns_no_series {kalman : Kalman} {sim : Simulator}
    (self : ParticleFilter.t) (data : pd.Series_t) (h : heap) :
  (forall (st : sim_state) (h1 : heap) (vals : list (list float)),
      returns (ParticleFilter.simulate_data self data h) (st, h1) ->
      get_filtered_mean st = inr vals ->
      length vals = S (length (pd.index data))) ->
  ~ exists (out : pd.Series_t) (h' : heap),
      returns (ParticleFilter.__process__ self data h) (out, h').
Proof.
  intros Hrows (out & h' & Hr).
  destruct (process_returns _ _ _ _ _ Hr) as (st & h1 & Hsim & Hser).
  destruct (filtered_series_returns _ _ _ _ _ Hser)
    as (vals & col & Hv & Hc & Hlen & _).
  apply column0_length in Hc.
  specialize (Hrows st h1 vals Hsim Hv). lia.
Qed.

Lemma process_returns_no_series_witness :
  ~ exists (out : pd.Series_t) (h' : heap),
      returns (ParticleFilter.__process__ (kalman := kalman_formulas)
                 (sim := recorded_run long_recorded) demo_self demo_series demo_heap)
              (out, h').
Proof.
  apply (process_returns_no_series (kalman := kalman_formulas)
           (sim := recorded_run long_recorded) demo_self demo_series demo_heap).
  intros st h1 vals Hsim Hv.
  apply recorded_run_simulate_data in Hsim. subst st.
  injection Hv as <-. reflexivity.
Defined.

(** C10.  When [__process__] returns, the series is named ['filtered_eda']
    and has the index of the input; and, the library not writing the
    measurements it is given, the array of the input holds what it held. *)
Theorem process_names_and_indexes_output {kalman : Kalman} {sim : Simulator}
    (self : ParticleFilter.t) (data out : pd.Series_t) (h h' : heap)
    (ys : list float) :
  keeps_measurements ->
  h !! pd.values data = Some ys ->
  returns (ParticleFilter.__process__ self data h) (out, h') ->
  pd.name out = Some "filtered_eda"%string /\
  pd.index out = pd.index data /\
  h' !! pd.values data = Some ys.
Proof.
  intros Hkeep Hy Hr.
  destruct (process_returns _ _ _ _ _ Hr) as (st & h1 & Hsim & Hser).
  pose proof (simulate_data_keeps_input _ _ _ _ _ _ Hkeep Hy Hsim) as Hy1.
  destruct (filtered_series_returns _ _ _ _ _ Hser)
    as (vals & col & _ & _ & _ & Hfresh & -> & Hidx & Hname).
  split; [exact Hname |]. split; [exact Hidx |].
  rewrite lookup_insert_ne; [exact Hy1 | congruence].
Qed.

Lemma process_names_and_indexes_output_witness :
  pd.name demo_out = Some "filtered_eda"%string /\
  pd.index demo_out = pd.index demo_series /\
  demo_final_heap !! pd.values demo_series = Some [Fin 1; Fin 2].
Proof.
  apply (process_names_and_indexes_output (kalman := kalman_formulas)
           (sim := recorded_run demo_recorded) demo_self demo_series demo_out
           demo_heap demo_final_heap [Fin 1; Fin 2]).
  - apply recorded_run_keeps_measurements.
  - reflexivity.
  - exact demo_process_returns.
Defined.

(** * Further properties *)

(* X1 *)
Lemma Model_init_fresh (P0 Q : float) (R : ref) (h h1 : heap) (m : Model.t)
    (Rv : list float) :
  h !! R = Some Rv ->
  returns (Model.__init__ P0 Q R h) (m, h1) ->
  h !! Model.P0 m = None /\ h !! Model.Q m = None /\ h !! Model.R m = None /\
  Model.P0 m <> Model.Q m /\ Model.P0 m <> Model.R m /\ Model.Q m <> Model.R m /\
  h1 = <[Model.R m := Rv]> (<[Model.Q m := [Q]]> (<[Model.P0 m := [P0]]> h)).
Proof.
  intros HR.
  destruct (Model_init_returns P0 Q R h Rv HR)
    as (m' & h1' & Hinit & _ & _ & _ & _ & _ & _ & _).
  unfold Model.__init__, bind, new_array, read in Hinit |- *.
  cbn [py_bind fst snd] in Hinit |- *.
  set (p := fresh (dom h)) in *.
  set (hp := <[p := [P0]]> h) in *.
  set (q := fresh (dom hp)) in *.
  set (hq := <[q := [Q]]> hp) in *.
  assert (Hp : h !! p = None) by (apply not_elem_of_dom, is_fresh).
  assert (Hq : hp !! q = None) by (apply not_elem_of_dom, is_fresh).
  assert (HRp : R <> p) by congruence.
  assert (Hqp : q <> p).
  { intros E. unfold hp in Hq. rewrite E, lookup_insert_eq in Hq. discriminate. }
  assert (HRhp : hp !! R = Some Rv).
  { unfold hp. rewrite lookup_insert_ne by congruence. exact HR. }
  assert (HRq : R <> q) by congruence.
  assert (HRhq : hq !! R = Some Rv).
  { unfold hq. rewrite lookup_insert_ne by congruence. exact HRhp. }
  rewrite HRhq. cbn [py_bind fst snd ret].
  set (r := fresh (dom hq)).
  assert (Hr : hq !! r = None) by (apply not_elem_of_dom, is_fresh).
  assert (Hrq : r <> q).
  { intros E. unfold hq in Hr. rewrite E, lookup_insert_eq in Hr. discriminate. }
  assert (Hrp : r <> p).
  { intros E. unfold hq, hp in Hr.
    rewrite E, lookup_insert_ne, lookup_insert_eq in Hr by congruence.
    discriminate. }
  intros Hret. apply returns_inv in Hret. injection Hret as <- <-.
  cbn [Model.P0 Model.Q Model.R].
  unfold hq, hp in Hr. rewrite !lookup_insert_ne in Hr by congruence.
  unfold hp in Hq. rewrite lookup_insert_ne in Hq by congruence.
  repeat split; try assumption; congruence.
Qed.

(** X1.  [Model(P0, Q, R)] keeps private copies: its three parameter arrays
    are new, distinct objects, none of them an array that existed before;
    building the model changes no existing array; and overwriting any
    existing array afterwards, the caller's [R] included, leaves the model's
    parameters as they were given. *)
Theorem model_parameters_are_private_copies (P0 Q : float) (R : ref)
    (h h1 : heap) (m : Model.t) (Rv : list float) :
  h !! R = Some Rv ->
  returns (Model.__init__ P0 Q R h) (m, h1) ->
  (Model.P0 m <> Model.Q m /\ Model.P0 m <> Model.R m /\ Model.Q m <> Model.R m) /\
  (forall x : ref, is_Some (h !! x) ->
     x <> Model.P0 m /\ x <> Model.Q m /\ x <> Model.R m) /\
  (forall x : ref, is_Some (h !! x) -> h1 !! x = h !! x) /\
  forall (x : ref) (new : list float), is_Some (h !! x) ->
    <[x := new]> h1 !! Model.P0 m = Some [P0] /\
    <[x := new]> h1 !! Model.Q m = Some [Q] /\
    <[x := new]> h1 !! Model.R m = Some Rv.
Proof.
  intros HR Hr.
  destruct (Model_init_fresh _ _ _ _ _ _ _ HR Hr)
    as (HP0 & HQ & HRm & Hpq & Hpr & Hqr & ->).
  assert (Hold : forall x : ref, is_Some (h !! x) ->
            x <> Model.P0 m /\ x <> Model.Q m /\ x <> Model.R m).
  { intros x [v Hx]. repeat split; intros E; rewrite E in Hx; congruence. }
  split; [auto |]. split; [exact Hold |]. split.
  - intros x Hx. destruct (Hold x Hx) as (H1 & H2 & H3).
    rewrite !lookup_insert_ne by congruence. reflexivity.
  - intros x new Hx. destruct (Hold x Hx) as (H1 & H2 & H3).
    repeat split.
    + rewrite !lookup_insert_ne by congruence. apply lookup_insert_eq.
    + rewrite lookup_insert_ne, lookup_insert_ne by congruence.
      apply lookup_insert_eq.
    + rewrite lookup_insert_ne by congruence. apply lookup_insert_eq.
Qed.

Lemma demo_model_init_returns :
  returns (Model.__init__ (Fin (2 / 100)) (Fin (2 / 100)) 3 demo_heap)
          (Model.mk 6 7 8, demo_model_heap).
Proof. apply returns_Ret. Qed.

Lemma np_inplace_length (op : float -> float -> float) (a b c : list float) :
  np_inplace op a b = inr c -> length c = length a.
Proof.
  unfold np_inplace.
  destruct (decide (length a = length b)) as [Hlen | Hlen].
  - intros [= <-]. rewrite length_zip_with. lia.
  - destruct b as [| y [| z b]]; try discriminate.
    intros [= <-]. apply length_map.
Qed.

Lemma update_shape_mismatch (self : Model.t) (particles noise : ref)
    (u : option float) (t : Z) (h : heap) (ps ns : list float) :
  h !! particles = Some ps -> h !! noise = Some ns ->
  length ns <> length ps -> length ns <> 1%nat ->
  Model.update self particles u t noise h = Raise ValueError.
Proof.
  intros Hp Hn Hlen H1. unfold Model.update, bind, read.
  rewrite Hp. cbn [py_bind fst snd]. rewrite Hn. cbn [py_bind fst snd].
  unfold np_inplace.
  destruct (decide (length ps = length ns)) as [E | _]; [congruence |].
  destruct ns as [| y [| z ns]]; [reflexivity | | reflexivity].
  simpl in H1. congruence.
Qed.

(** X2.  [update] raises [ValueError] when the noise has neither the length
    of the particles nor a single entry; when it returns, the noise had one
    of these two shapes, only the particle array is written, and it has as
    many particles as before. *)
Theorem update_keeps_particle_count (self : Model.t) (particles noise : ref)
    (u : option float) (t : Z) (h : heap) (ps ns : list float) :
  h !! particles = Some ps -> h !! noise = Some ns ->
  (length ns <> length ps -> length ns <> 1%nat ->
   Model.update self particles u t noise h = Raise ValueError) /\
  (forall (x : unit) (h' : heap),
     returns (Model.update self particles u t noise h) (x, h') ->
     (length ns = length ps \/ length ns = 1%nat) /\
     exists ps' : list float,
       h' = <[particles := ps']> h /\ length ps' = length ps).
Proof.
  intros Hp Hn. split.
  - intros Hlen H1. apply (update_shape_mismatch self particles noise u t h ps ns);
      assumption.
  - intros x h' Hr.
    apply update_writes_particles in Hr.
    destruct Hr as (ps0 & ns0 & ps' & Hp0 & Hn0 & Hadd & ->).
    rewrite Hp in Hp0. rewrite Hn in Hn0.
    injection Hp0 as <-. injection Hn0 as <-.
    split.
    + unfold np_inplace in Hadd.
      destruct (decide (length ps = length ns)) as [E | _]; [left; congruence |].
      destruct ns as [| y [| z ns]]; try discriminate. right. reflexivity.
    + exists ps'. split; [reflexivity |]. eapply np_inplace_length. exact Hadd.
Qed.

(** X3.  A time update, [sample_process_noise] followed by [update] on its
    result, asks the generator once for as many normal draws as there are
    particles, with the stored [Q] as scale; given that many draws it adds
    draw [i] to particle [i] and keeps the draws in a new array; given
    another number of draws, not one, it raises [ValueError]. *)
Theorem propagate_adds_sampled_noise (self : Model.t) (particles : ref)
    (u : option float) (t : Z) (h : heap) (ps : list float) (s : float) :
  h !! particles = Some ps -> h !! Model.Q self = Some [s] ->
  exists k : list float -> py (unit * heap),
    propagate self particles u t h
    = Draw (normal (Fin 0) s (Z.of_nat (length ps))) k /\
    (forall xs : list float, length xs = length ps ->
       k xs = Ret (tt, <[particles := zip_with fadd ps xs]>
                         (<[fresh (dom h) := xs]> h))) /\
    (forall xs : list float, length xs <> length ps -> length xs <> 1%nat ->
       k xs = Raise ValueError).
Proof.
  intros Hp HQ.
  assert (Hf : h !! fresh (dom h) = None) by (apply not_elem_of_dom, is_fresh).
  assert (Hne : fresh (dom h) <> particles) by congruence.
  eexists. split; [| split].
  - unfold propagate, bind.
    rewrite (sample_process_noise_draw self particles u t h ps s Hp HQ).
    cbn [py_bind]. reflexivity.
  - intros xs Hlen. unfold new_array. cbn [py_bind fst snd].
    apply update_equal_shapes.
    + rewrite lookup_insert_ne by exact Hne. exact Hp.
    + apply lookup_insert_eq.
    + congruence.
  - intros xs Hlen H1. unfold new_array. cbn [py_bind fst snd].
    apply (update_shape_mismatch self particles _ u t _ ps xs).
    + rewrite lookup_insert_ne by exact Hne. exact Hp.
    + apply lookup_insert_eq.
    + exact Hlen.
    + exact H1.
Qed.

Lemma zip_with_fadd_Fin (xs ns : list R) :
  zip_with fadd (map Fin xs) (map Fin ns) = map Fin (zip_with Rplus xs ns).
Proof.
  revert ns. induction xs as [| x xs IH]; intros [| n ns]; simpl; try reflexivity.
  rewrite IH. reflexivity.
Qed.

(** X4.  Successive calls of [update] on the same particle array accumulate:
    after the calls the array holds, entry by entry, the initial particle
    plus the sum of its noises, and no other array has changed. *)
Theorem updates_accumulate (self : Model.t) (particles : ref)
    (steps : list (option float * Z * ref)) (noises : list (list R))
    (h : heap) (xs : list R) :
  h !! particles = Some (map Fin xs) ->
  noise_arrays h particles (length xs) steps noises ->
  updates self particles steps h
  = Ret (tt, <[particles := map Fin (foldl (zip_with Rplus) xs noises)]> h).
Proof.
  intros Hp Hsteps. revert noises xs h Hp Hsteps.
  induction steps as [| [[u t] noise] steps IH]; intros noises xs h Hp Hsteps.
  - inversion Hsteps; subst. simpl. unfold ret.
    rewrite insert_id by exact Hp. reflexivity.
  - inversion Hsteps as [| step ns steps' noises' (Hne & Hn & Hlen) Hrest]; subst.
    simpl in Hne, Hn. cbn [updates]. unfold bind.
    rewrite (update_equal_shapes self particles noise u t h (map Fin xs) (map Fin ns))
      by (try assumption; rewrite !length_map; congruence).
    cbn [py_bind fst snd]. rewrite zip_with_fadd_Fin.
    rewrite (IH noises' (zip_with Rplus xs ns)).
    + rewrite insert_insert_eq. reflexivity.
    + apply lookup_insert_eq.
    + assert (Hl : length (zip_with Rplus xs ns) = length xs)
        by (rewrite length_zip_with; lia).
      unfold noise_arrays in *. rewrite Hl.
      eapply Forall2_impl; [exact Hrest |].
      intros [[u' t'] r'] ns' (Hne' & Hn' & Hlen'). simpl in *.
      repeat split; try assumption.
      rewrite lookup_insert_ne by congruence. exact Hn'.
Qed.

Lemma mapM_length {A B : Type} (f : A -> result B) (l : list A) (bs : list B) :
  mapM f l = inr bs -> length bs = length l.
Proof.
  revert bs. induction l as [| a l IH]; simpl; intros bs Hm.
  - injection Hm as <-. reflexivity.
  - destruct (f a) as [e | b]; [discriminate |].
    destruct (mapM f l) as [e | bs']; [discriminate |].
    injection Hm as <-. simpl. f_equal. apply IH. reflexivity.
Qed.

Lemma mapM_ext_map {A B C : Type} (f : A -> result C) (g : B -> result C)
    (s : B -> A) (l : list B) :
  (forall b, f (s b) = g b) -> mapM f (map s l) = mapM g l.
Proof.
  intros Hfg. induction l as [| b l IH]; simpl; [reflexivity |].
  rewrite Hfg, IH. reflexivity.
Qed.

(** X5.  When [measure] returns, its result is a new array with exactly one
    log-weight per particle, and the particle array is as it was. *)
Theorem measure_gives_one_weight_per_particle {kalman : Kalman} (self : Model.t)
    (particles : ref) (y : float) (t : Z) (h h' : heap) (out : ref)
    (ps : list float) :
  h !! particles = Some ps ->
  returns (Model.measure self particles y t h) (out, h') ->
  h !! out = None /\
  h' !! particles = Some ps /\
  exists ws : list float,
    h' = <[out := ws]> h /\ length ws = length ps.
Proof.
  intros Hp Hr. unfold Model.measure in Hr.
  apply returns_bind in Hr. destruct Hr as (ps0 & h0 & Hread & Hr).
  apply returns_read in Hread. destruct Hread as [Hp0 <-].
  rewrite Hp in Hp0. injection Hp0 as <-.
  apply returns_bind in Hr. destruct Hr as (sR & h0 & Hread & Hr).
  apply returns_read in Hread. destruct Hread as [HR <-].
  apply returns_bind in Hr. destruct Hr as (ws & h0 & Hl & Hr).
  apply returns_lift in Hl. destruct Hl as [Hm <-].
  apply returns_new_array in Hr. destruct Hr as [Hfresh ->].
  split; [exact Hfresh |]. split.
  - rewrite lookup_insert_ne by congruence. exact Hp.
  - exists ws. split; [reflexivity |]. eapply mapM_length. exact Hm.
Qed.

Lemma fsub_shifted (c : R) (a b : float) :
  fsub (shifted c a) (shifted c b) = fsub a b.
Proof.
  destruct a as [x | | |], b as [y | | |]; simpl; try reflexivity.
  f_equal. ring.
Qed.

(** X6.  [measure] depends on the particles and the measurement through
    their differences only: moving every particle and the measurement by
    the same amount, at any time [t], gives the same outcome, result or
    exception.  This holds whatever the density function computes. *)
Theorem measure_is_shift_invariant {kalman : Kalman} (self : Model.t)
    (p1 p2 : ref) (y : float) (c : R) (t1 t2 : Z) (h : heap) (ps : list float) :
  h !! p1 = Some ps ->
  h !! p2 = Some (map (shifted c) ps) ->
  Model.measure self p2 (shifted c y) t2 h = Model.measure self p1 y t1 h.
Proof.
  intros H1 H2. unfold Model.measure, bind, read.
  rewrite H1, H2. cbn [py_bind fst snd].
  destruct (h !! Model.R self) as [sR |]; [| reflexivity].
  cbn [py_bind fst snd].
  rewrite (mapM_ext_map _
             (fun x => match item sR with
                       | inl e => inl e
                       | inr var => lognormpdf_scalar (fsub x y) var
                       end) (shifted c) ps).
  - reflexivity.
  - intros b. rewrite fsub_shifted. reflexivity.
Qed.

(** X7.  With a measurement that is [nan], [measure] gives every particle
    the same log-weight, the value of the density function at [nan]: the
    particles no longer matter. *)
Theorem nan_measurement_weighs_all_particles_alike {kalman : Kalman}
    (self : Model.t) (particles : ref) (t : Z) (h : heap) (ps : list float)
    (var v : float) :
  h !! particles = Some ps ->
  h !! Model.R self = Some [var] ->
  lognormpdf_scalar NaN var = inr v ->
  Model.measure self particles NaN t h
  = Ret (fresh (dom h), <[fresh (dom h) := replicate (length ps) v]> h).
Proof.
  intros Hp HR Hk. unfold Model.measure, bind, read.
  rewrite Hp. cbn [py_bind fst snd]. rewrite HR. cbn [py_bind fst snd].
  assert (Hm : mapM (fun x => match item [var] with
                              | inl e => inl e
                              | inr var0 => lognormpdf_scalar (fsub x NaN) var0
                              end) ps = inr (replicate (length ps) v)).
  { clear Hp. induction ps as [| a ps IH]; [reflexivity |].
    cbn [mapM length replicate item].
    replace (fsub a NaN) with NaN by (destruct a; reflexivity).
    rewrite Hk. cbn [item] in IH. rewrite IH. reflexivity. }
  rewrite Hm. reflexivity.
Qed.

Lemma measure_returns_lognormal {kalman : Kalman} (self : Model.t) (h : heap)
    (r : R) (particles : ref) (xs : list R) (y : R) (t : Z) :
  kalman_lognormal ->
  h !! Model.R self = Some [Fin r] -> (0 < r)%R ->
  h !! particles = Some (map Fin xs) ->
  Model.measure self particles (Fin y) t h
  = Ret (fresh (dom h),
         <[fresh (dom h) := map (fun x => Fin (ln (normal_pdf x r y))) xs]> h).
Proof.
  intros HK HR Hr Hp.
  unfold Model.measure, bind, read. rewrite Hp. cbn [py_bind fst snd].
  rewrite HR. cbn [py_bind fst snd].
  rewrite (mapM_measure r y xs HK Hr). reflexivity.
Qed.

Lemma ln_normal_pdf_order (r y xi xj : R) :
  (0 < r)%R -> (Rabs (xi - y) <= Rabs (xj - y))%R ->
  (ln (normal_pdf xj r y) <= ln (normal_pdf xi r y))%R.
Proof.
  intros Hr Habs. rewrite !ln_normal_pdf by exact Hr.
  assert (Hsq : ((y - xi) * (y - xi) <= (y - xj) * (y - xj))%R).
  { apply Rsqr_le_abs_1 in Habs. unfold Rsqr in Habs. nra. }
  assert (Hdiv : ((y - xi) * (y - xi) / r <= (y - xj) * (y - xj) / r)%R).
  { unfold Rdiv. apply Rmult_le_compat_r; [| exact Hsq].
    left. apply Rinv_0_lt_compat. exact Hr. }
  lra.
Qed.

(** X8.  With the density function computing the normal log-density and a
    positive [R], [measure] never gives a particle farther from the
    measurement a higher log-weight than a nearer one. *)
Theorem measure_orders_particles_by_distance {kalman : Kalman} (self : Model.t)
    (h : heap) (r : R) (particles : ref) (xs : list R) (y : R) (t : Z) :
  kalman_lognormal ->
  h !! Model.R self = Some [Fin r] -> (0 < r)%R ->
  h !! particles = Some (map Fin xs) ->
  exists (out : ref) (ws : list R),
    Model.measure self particles (Fin y) t h = Ret (out, <[out := map Fin ws]> h) /\
    length ws = length xs /\
    forall (i j : nat) (xi xj wi wj : R),
      xs !! i = Some xi -> xs !! j = Some xj ->
      ws !! i = Some wi -> ws !! j = Some wj ->
      (Rabs (xi - y) <= Rabs (xj - y))%R -> (wj <= wi)%R.
Proof.
  intros HK HR Hr Hp.
  exists (fresh (dom h)), (map (fun x => ln (normal_pdf x r y)) xs).
  split; [| split].
  - rewrite (measure_returns_lognormal self h r particles xs y t HK HR Hr Hp).
    rewrite <- list_fmap_compose. reflexivity.
  - apply length_map.
  - intros i j xi xj wi wj Hi Hj Hwi Hwj Habs.
    rewrite list_lookup_fmap, Hi in Hwi. rewrite list_lookup_fmap, Hj in Hwj.
    simpl in Hwi, Hwj. injection Hwi as <-. injection Hwj as <-.
    apply ln_normal_pdf_order; assumption.
Qed.

Lemma np_getitem_map (s : float -> float) (a : list float) (i : Z) :
  np_getitem (map s a) i
  = match np_getitem a i with
    | inl e => inl e
    | inr x => inr (s x)
    end.
Proof.
  unfold np_getitem. rewrite length_map.
  destruct (decide (0 <= (if decide (i < 0)%Z then (i + Z.of_nat (length a))%Z else i)
                    < Z.of_nat (length a))%Z) as [Hin | Hout]; [| reflexivity].
  rewrite list_lookup_fmap.
  destruct (a !! _) as [x |]; reflexivity.
Qed.

Lemma np_take_map (s : float -> float) (a : list float) (ind : list Z) :
  np_take (map s a) ind
  = match np_take a ind with
    | inl e => inl e
    | inr sel => inr (map s sel)
    end.
Proof.
  unfold np_take. induction ind as [| i ind IH]; simpl; [reflexivity |].
  rewrite np_getitem_map. destruct (np_getitem a i) as [e | x]; [reflexivity |].
  rewrite IH. destruct (mapM (np_getitem a) ind) as [e | sel]; reflexivity.
Qed.

Lemma zip_with_fsub_shifted (c : R) (a b : list float) :
  zip_with fsub (map (shifted c) a) (map (shifted c) b) = zip_with fsub a b.
Proof.
  revert b. induction a as [| x a IH]; intros [| y b]; simpl; try reflexivity.
  rewrite fsub_shifted, IH. reflexivity.
Qed.

Lemma np_binary_fsub_shifted (c : R) (a b : list float) :
  np_binary fsub (map (shifted c) a) (map (shifted c) b) = np_binary fsub a b.
Proof.
  unfold np_binary. rewrite !length_map.
  destruct (decide (length a = length b)) as [_ | _].
  - rewrite zip_with_fsub_shifted. reflexivity.
  - assert (Hmap : forall (y : float) (l : list float),
              map (fun x => fsub x (shifted c y)) (map (shifted c) l)
              = map (fun x => fsub x y) l).
    { intros y l. rewrite map_map. apply map_ext. intros x. apply fsub_shifted. }
    assert (Hmap' : forall (x : float) (l : list float),
              map (fun y => fsub (shifted c x) y) (map (shifted c) l)
              = map (fun y => fsub x y) l).
    { intros x l. rewrite map_map. apply map_ext. intros y. apply fsub_shifted. }
    destruct a as [| x [| x' a]], b as [| y [| y' b]]; try reflexivity.
    + rewrite <- (Hmap y [x]). reflexivity.
    + rewrite <- (Hmap' x (y :: y' :: b)). reflexivity.
    + rewrite <- (Hmap y (x :: x' :: a)). reflexivity.
Qed.

(** X9.  [logp_xnext_full] depends on the particles and the next states
    through their differences only: moving both by the same amount gives the
    same outcome, whatever the density function computes; only the first
    step of [future_trajs] is read. *)
Theorem logp_xnext_full_is_shift_invariant {kalman : Kalman} (self : Model.t)
    (part1 part2 : ref) (step1 step2 : pf.TrajectoryStep)
    (rest1 rest2 : list pf.TrajectoryStep) (find : list Z) (c : R) (h : heap)
    (ps fs : list float) :
  h !! part1 = Some ps ->
  h !! part2 = Some (map (shifted c) ps) ->
  h !! pf.part (pf.pa step1) = Some fs ->
  h !! pf.part (pf.pa step2) = Some (map (shifted c) fs) ->
  Model.logp_xnext_full self part2 (step2 :: rest2) find h
  = Model.logp_xnext_full self part1 (step1 :: rest1) find h.
Proof.
  intros Hp1 Hp2 Hf1 Hf2. unfold Model.logp_xnext_full, bind, read.
  rewrite Hf1, Hf2. cbn [py_bind fst snd].
  rewrite np_take_map.
  destruct (np_take fs find) as [e | sel]; [reflexivity |].
  cbn [lift ret py_bind fst snd]. rewrite Hp1, Hp2. cbn [py_bind fst snd].
  rewrite np_binary_fsub_shifted. reflexivity.
Qed.

Lemma run_py_bind {np : NumpyRandom} {A B : Type} (p : py A) (f : A -> py B)
    (g : rng) :
  run (py_bind p f) g
  = match run p g with
    | (inl e, g1) => (inl e, g1)
    | (inr a, g1) => run (f a) g1
    end.
Proof.
  revert g. induction p as [a | e | c k IH]; intros g; simpl.
  - reflexivity.
  - reflexivity.
  - destruct (np_random_draw c g) as [[e | xs] g1]; [reflexivity | apply IH].
Qed.

(** X12.  A run of [__process__] whose simulator run returns a filtered mean
    [vals]: it raises [IndexError] when [vals[:, 0]] does; it raises
    [ValueError] when column 0 and the index of the input differ in length;
    otherwise it returns the series of column 0 over the index of the input,
    named ['filtered_eda'].  In each case the generator is left as the
    simulator left it: building the series draws nothing. *)
Theorem process_run_outcome {np : NumpyRandom} {kalman : Kalman} {sim : Simulator}
    (self : ParticleFilter.t) (data : pd.Series_t) (h h1 : heap) (g g1 : rng)
    (st : sim_state) (vals : list (list float)) :
  run (ParticleFilter.simulate_data self data h) g = (inr (st, h1), g1) ->
  get_filtered_mean st = inr vals ->
  run (ParticleFilter.__process__ self data h) g
  = match column0 vals with
    | inl e => (inl e, g1)
    | inr col =>
        if decide (length col = length (pd.index data))
        then (inr (pd.mk (fresh (dom h1)) (pd.index data) (Some "filtered_eda"%string),
                   <[fresh (dom h1) := col]> h1), g1)
        else (inl ValueError, g1)
    end.
Proof.
  intros Hsim Hvals.
  unfold ParticleFilter.__process__, bind. rewrite run_py_bind, Hsim.
  cbn [fst snd]. rewrite (filtered_series_outcome st data h1 vals Hvals).
  destruct (column0 vals) as [e | col]; [reflexivity |].
  destruct (decide (length col = length (pd.index data))); reflexivity.
Qed.

Lemma process_run_outcome_witness :
  run (np := counting_generator)
    (ParticleFilter.__process__ (kalman := kalman_formulas)
       (sim := recorded_run long_recorded) demo_self demo_series demo_heap) 0%nat
  = (inl ValueError, 1%nat).
Proof.
  apply (process_run_outcome (np := counting_generator) (kalman := kalman_formulas)
           (sim := recorded_run long_recorded) demo_self demo_series demo_heap
           (<[9%positive := [Fin (INR 0); Fin (INR 0)]]> demo_model_heap)
           0%nat 1%nat long_recorded [[Fin 0]; [Fin 2]; [Fin 4]]); reflexivity.
Defined.

(** X13.  Two filters built one after the other have distinct variance
    arrays, each holding its own [R_variance]; no array that existed before
    is changed or reused. *)
Theorem filters_do_not_share_arrays (N1 M1 N2 M2 : Z) (P1 Q1 R1 P2 Q2 R2 : float)
    (h h1 h2 : heap) (s1 s2 : ParticleFilter.t) :
  returns (ParticleFilter.__init__ N1 M1 P1 Q1 R1 h) (s1, h1) ->
  returns (ParticleFilter.__init__ N2 M2 P2 Q2 R2 h1) (s2, h2) ->
  ParticleFilter.R s1 <> ParticleFilter.R s2 /\
  h2 !! ParticleFilter.R s1 = Some [R1] /\
  h2 !! ParticleFilter.R s2 = Some [R2] /\
  forall x : ref, is_Some (h !! x) ->
    h2 !! x = h !! x /\ x <> ParticleFilter.R s1 /\ x <> ParticleFilter.R s2.
Proof.
  intros H1 H2.
  rewrite ParticleFilter_init_returns in H1, H2.
  apply returns_inv in H1. apply returns_inv in H2.
  injection H1 as <- <-. injection H2 as <- <-.
  cbn [ParticleFilter.R].
  set (r1 := fresh (dom h)).
  set (h1 := <[r1 := [R1]]> h).
  set (r2 := fresh (dom h1)).
  assert (Hr1 : h !! r1 = None) by (apply not_elem_of_dom, is_fresh).
  assert (Hr2 : h1 !! r2 = None) by (apply not_elem_of_dom, is_fresh).
  assert (Hne : r1 <> r2).
  { intros E. unfold h1 in Hr2. rewrite <- E, lookup_insert_eq in Hr2. discriminate. }
  split; [exact Hne |]. split; [| split].
  - rewrite lookup_insert_ne by congruence. apply lookup_insert_eq.
  - apply lookup_insert_eq.
  - intros x [v Hx].
    assert (Hx1 : x <> r1) by congruence.
    assert (Hx2 : x <> r2).
    { intros E. unfold h1 in Hr2. rewrite <- E, lookup_insert_ne in Hr2 by congruence.
      congruence. }
    split; [| split; assumption].
    unfold h1. rewrite !lookup_insert_ne by congruence. reflexivity.
Qed.

Lemma np_binary_length (op : float -> float -> float) (a b c : list float) :
  np_binary op a b = inr c ->
  (length a = length b /\ length c = length a) \/
  (length b = 1%nat /\ length c = length a) \/
  (length a = 1%nat /\ length c = length b).
Proof.
  unfold np_binary.
  destruct (decide (length a = length b)) as [Hlen | Hlen].
  - intros [= <-]. rewrite length_zip_with. left. split; [exact Hlen | lia].
  - destruct a as [| x [| x' a]], b as [| y [| y' b]]; try discriminate;
      intros [= <-]; cbn [length map]; rewrite ?length_map; cbn [length]; auto.
Qed.

(** X10.  When [logp_xnext_full] returns, its result is a new array: one
    value per particle when [find] selects as many next states as there are
    particles or a single one, one value per selected state when there is a
    single particle; no other combination returns. *)
Theorem logp_xnext_full_gives_one_value_per_pair {kalman : Kalman} (self : Model.t)
    (part : ref) (step : pf.TrajectoryStep) (rest : list pf.TrajectoryStep)
    (find : list Z) (h h' : heap) (out : ref) (ps fs : list float) :
  h !! part = Some ps ->
  h !! pf.part (pf.pa step) = Some fs ->
  returns (Model.logp_xnext_full self part (step :: rest) find h) (out, h') ->
  h !! out = None /\
  exists ws : list float,
    h' = <[out := ws]> h /\
    ((length find = length ps /\ length ws = length ps) \/
     (length ps = 1%nat /\ length ws = length find) \/
     (length find = 1%nat /\ length ws = length ps)).
Proof.
  intros Hp Hf Hr. unfold Model.logp_xnext_full in Hr.
  apply returns_bind in Hr. destruct Hr as (fs0 & h0 & Hread & Hr).
  apply returns_read in Hread. destruct Hread as [Hf0 <-].
  rewrite Hf in Hf0. injection Hf0 as <-.
  apply returns_bind in Hr. destruct Hr as (sel & h0 & Hl & Hr).
  apply returns_lift in Hl. destruct Hl as [Htake <-].
  apply returns_bind in Hr. destruct Hr as (ps0 & h0 & Hread & Hr).
  apply returns_read in Hread. destruct Hread as [Hp0 <-].
  rewrite Hp in Hp0. injection Hp0 as <-.
  apply returns_bind in Hr. destruct Hr as (diff & h0 & Hl & Hr).
  apply returns_lift in Hl. destruct Hl as [Hdiff <-].
  apply returns_bind in Hr. destruct Hr as (sQ & h0 & Hread & Hr).
  apply returns_read in Hread. destruct Hread as [HQ <-].
  apply returns_bind in Hr. destruct Hr as (ws & h0 & Hl & Hr).
  apply returns_lift in Hl. destruct Hl as [Hm <-].
  apply returns_new_array in Hr. destruct Hr as [Hfresh ->].
  apply mapM_length in Htake. apply mapM_length in Hm.
  apply np_binary_length in Hdiff.
  split; [exact Hfresh |].
  exists ws. split; [reflexivity |].
  destruct Hdiff as [[H1 H2] | [[H1 H2] | [H1 H2]]].
  - left. split; congruence.
  - right. left. split; congruence.
  - right. right. split; congruence.
Qed.

Lemma logp_xnext_full_returns_lognormal {kalman : Kalman} (self : Model.t)
    (h : heap) (q : R) (part : ref) (step : pf.TrajectoryStep)
    (rest : list pf.TrajectoryStep) (find : list Z) (future : list float)
    (xs_next xs_prev : list R) :
  kalman_lognormal ->
  h !! Model.Q self = Some [Fin q] -> (0 < q)%R ->
  h !! part = Some (map Fin xs_prev) ->
  h !! pf.part (pf.pa step) = Some future ->
  np_take future find = inr (map Fin xs_next) ->
  length xs_next = length xs_prev ->
  Model.logp_xnext_full self part (step :: rest) find h
  = Ret (fresh (dom h),
         <[fresh (dom h) := zip_with (fun xn xp => Fin (ln (normal_pdf xp q xn)))
                              xs_next xs_prev]> h).
Proof.
  intros HK HQ Hq Hp Hf Htake Hlen.
  unfold Model.logp_xnext_full, bind, read. rewrite Hf. cbn [py_bind fst snd].
  rewrite Htake. cbn [py_bind fst snd lift ret]. rewrite Hp.
  cbn [py_bind fst snd]. unfold np_binary.
  destruct (decide (length (map Fin xs_next) = length (map Fin xs_prev)))
    as [_ | Hne]; [| rewrite !length_map in Hne; contradiction].
  cbn [py_bind fst snd lift ret]. rewrite HQ. cbn [py_bind fst snd].
  rewrite (mapM_transition q xs_next xs_prev HK Hq). reflexivity.
Qed.

Lemma draws_nothing_Ret {A : Type} (a : A) : draws_nothing (Ret a).
Proof. left. exists a. reflexivity. Qed.

Lemma draws_nothing_Raise {A : Type} (e : exn) : draws_nothing (@Raise A e).
Proof. right. exists e. reflexivity. Qed.

Lemma draws_nothing_bind_ret {A B : Type} (p : py (A * heap)) (f : A -> B) :
  draws_nothing p ->
  draws_nothing (py_bind p (fun ah => ret (f (fst ah)) (snd ah))).
Proof.
  intros [[a ->] | [e ->]]; [apply draws_nothing_Ret | apply draws_nothing_Raise].
Qed.

Lemma update_draws_nothing (self : Model.t) (particles noise : ref)
    (u : option float) (t : Z) (h : heap) :
  draws_nothing (Model.update self particles u t noise h).
Proof.
  unfold Model.update, bind, read.
  destruct (h !! particles) as [ps |]; [| apply draws_nothing_Raise].
  cbn [py_bind fst snd].
  destruct (h !! noise) as [ns |]; [| apply draws_nothing_Raise].
  cbn [py_bind fst snd].
  destruct (np_inplace fadd ps ns) as [e | ps'];
    [apply draws_nothing_Raise | apply draws_nothing_Ret].
Qed.

Lemma measure_draws_nothing {kalman : Kalman} (self : Model.t) (particles : ref)
    (y : float) (t : Z) (h : heap) :
  draws_nothing (Model.measure self particles y t h).
Proof.
  unfold Model.measure, bind, read.
  destruct (h !! particles) as [ps |]; [| apply draws_nothing_Raise].
  cbn [py_bind fst snd].
  destruct (h !! Model.R self) as [sR |]; [| apply draws_nothing_Raise].
  cbn [py_bind fst snd].
  destruct (mapM _ ps) as [e | ws];
    [apply draws_nothing_Raise | apply draws_nothing_Ret].
Qed.

Lemma logp_xnext_full_draws_nothing {kalman : Kalman} (self : Model.t)
    (part : ref) (future_trajs : list pf.TrajectoryStep) (find : list Z) (h : heap) :
  draws_nothing (Model.logp_xnext_full self part future_trajs find h).
Proof.
  unfold Model.logp_xnext_full.
  destruct future_trajs as [| step rest]; [apply draws_nothing_Raise |].
  unfold bind, read.
  destruct (h !! pf.part (pf.pa step)) as [fs |]; [| apply draws_nothing_Raise].
  cbn [py_bind fst snd].
  destruct (np_take fs find) as [e | sel]; [apply draws_nothing_Raise |].
  cbn [py_bind fst snd lift ret].
  destruct (h !! part) as [ps |]; [| apply draws_nothing_Raise].
  cbn [py_bind fst snd].
  destruct (np_binary fsub sel ps) as [e | diff]; [apply draws_nothing_Raise |].
  cbn [py_bind fst snd lift ret].
  destruct (h !! Model.Q self) as [sQ |]; [| apply draws_nothing_Raise].
  cbn [py_bind fst snd].
  destruct (mapM _ diff) as [e | ws];
    [apply draws_nothing_Raise | apply draws_nothing_Ret].
Qed.

Lemma create_initial_estimate_draws_once (self : Model.t) (N : Z) (h : heap) :
  draws_at_most_once (Model.create_initial_estimate self N h).
Proof.
  unfold Model.create_initial_estimate, bind, read.
  destruct (h !! Model.P0 self) as [sP0 |];
    [| left; apply draws_nothing_Raise].
  cbn [py_bind fst snd].
  destruct (item sP0) as [e | scale]; [left; apply draws_nothing_Raise |].
  right. eexists _, _. split; [reflexivity |].
  intros xs. apply draws_nothing_Ret.
Qed.

Lemma sample_process_noise_draws_once (self : Model.t) (particles : ref)
    (u : option float) (t : Z) (h : heap) :
  draws_at_most_once (Model.sample_process_noise self particles u t h).
Proof.
  unfold Model.sample_process_noise, bind, read.
  destruct (h !! particles) as [ps |]; [| left; apply draws_nothing_Raise].
  cbn [py_bind fst snd].
  destruct (h !! Model.Q self) as [sQ |]; [| left; apply draws_nothing_Raise].
  cbn [py_bind fst snd].
  destruct (item sQ) as [e | scale]; [left; apply draws_nothing_Raise |].
  right. eexists _, _. split; [reflexivity |].
  intros xs. apply draws_nothing_Ret.
Qed.

(** X11.  [update], [measure] and [logp_xnext_full] never call the random
    generator; [create_initial_estimate] and [sample_process_noise] call it
    at most once, and do nothing random after that call. *)
Theorem model_operations_calls_to_the_generator {kalman : Kalman}
    (self : Model.t) (c : model_call) (h : heap) :
  match c with
  | call_create_initial_estimate _ | call_sample_process_noise _ _ _ =>
      draws_at_most_once (perform self c h)
  | _ => draws_nothing (perform self c h)
  end.
Proof.
  destruct c; cbn [perform]; unfold bind.
  - destruct (create_initial_estimate_draws_once self N h)
      as [Hn | (c & k & -> & Hk)].
    + left. apply (draws_nothing_bind_ret _ Some). exact Hn.
    + right. eexists _, _. split; [reflexivity |].
      intros xs. apply (draws_nothing_bind_ret _ Some). apply Hk.
  - destruct (sample_process_noise_draws_once self particles u t h)
      as [Hn | (c & k & -> & Hk)].
    + left. apply (draws_nothing_bind_ret _ Some). exact Hn.
    + right. eexists _, _. split; [reflexivity |].
      intros xs. apply (draws_nothing_bind_ret _ Some). apply Hk.
  - apply (draws_nothing_bind_ret _ (fun _ => None)). apply update_draws_nothing.
  - apply (draws_nothing_bind_ret _ Some). apply measure_draws_nothing.
  - apply (draws_nothing_bind_ret _ Some). apply logp_xnext_full_draws_nothing.
Qed.

Lemma model_parameters_are_private_copies_witness :
  (Model.P0 (Model.mk 6 7 8) <> Model.Q (Model.mk 6 7 8) /\
   Model.P0 (Model.mk 6 7 8) <> Model.R (Model.mk 6 7 8) /\
   Model.Q (Model.mk 6 7 8) <> Model.R (Model.mk 6 7 8)) /\
  (forall x : ref, is_Some (demo_heap !! x) ->
     x <> Model.P0 (Model.mk 6 7 8) /\ x <> Model.Q (Model.mk 6 7 8) /\
     x <> Model.R (Model.mk 6 7 8)) /\
  (forall x : ref, is_Some (demo_heap !! x) -> demo_model_heap !! x = demo_heap !! x) /\
  forall (x : ref) (new : list float), is_Some (demo_heap !! x) ->
    <[x := new]> demo_model_heap !! Model.P0 (Model.mk 6 7 8) = Some [Fin (2 / 100)] /\
    <[x := new]> demo_model_heap !! Model.Q (Model.mk 6 7 8) = Some [Fin (2 / 100)] /\
    <[x := new]> demo_model_heap !! Model.R (Model.mk 6 7 8) = Some [Fin (6 / 100)].
Proof.
  apply (model_parameters_are_private_copies (Fin (2 / 100)) (Fin (2 / 100)) 3
           demo_heap demo_model_heap (Model.mk 6 7 8) [Fin (6 / 100)]).
  - reflexivity.
  - exact demo_model_init_returns.
Defined.

Lemma update_keeps_particle_count_witness :
  (length [Fin 10; Fin 20] <> length [Fin 1; Fin 2] ->
   length [Fin 10; Fin 20] <> 1%nat ->
   Model.update demo_model 4 None 0 5 demo_heap = Raise ValueError) /\
  (forall (x : unit) (h' : heap),
     returns (Model.update demo_model 4 None 0 5 demo_heap) (x, h') ->
     (length [Fin 10; Fin 20] = length [Fin 1; Fin 2] \/
      length [Fin 10; Fin 20] = 1%nat) /\
     exists ps' : list float,
       h' = <[4%positive := ps']> demo_heap /\ length ps' = length [Fin 1; Fin 2]).
Proof.
  apply (update_keeps_particle_count demo_model 4 5 None 0 demo_heap
           [Fin 1; Fin 2] [Fin 10; Fin 20]); reflexivity.
Defined.

Lemma propagate_adds_sampled_noise_witness :
  exists k : list float -> py (unit * heap),
    propagate demo_model 4 None 0 demo_heap
    = Draw (normal (Fin 0) (Fin (2 / 100)) (Z.of_nat (length [Fin 1; Fin 2]))) k /\
    (forall xs : list float, length xs = length [Fin 1; Fin 2] ->
       k xs = Ret (tt, <[4%positive := zip_with fadd [Fin 1; Fin 2] xs]>
                         (<[fresh (dom demo_heap) := xs]> demo_heap))) /\
    (forall xs : list float, length xs <> length [Fin 1; Fin 2] ->
       length xs <> 1%nat -> k xs = Raise ValueError).
Proof.
  apply (propagate_adds_sampled_noise demo_model 4 None 0 demo_heap
           [Fin 1; Fin 2] (Fin (2 / 100))); reflexivity.
Defined.

Lemma updates_accumulate_witness :
  updates demo_model 4 [(None, 0%Z, 5%positive); (None, 1%Z, 5%positive)] demo_heap
  = Ret (tt, <[4%positive := map Fin (foldl (zip_with Rplus) [1; 2]%R
                                        [[10; 20]; [10; 20]]%R)]> demo_heap).
Proof.
  apply (updates_accumulate demo_model 4
           [(None, 0%Z, 5%positive); (None, 1%Z, 5%positive)]
           [[10; 20]; [10; 20]]%R demo_heap [1; 2]%R).
  - reflexivity.
  - repeat constructor; discriminate.
Defined.

Lemma measure_gives_one_weight_per_particle_witness :
  demo_heap !! fresh (dom demo_heap) = None /\
  <[fresh (dom demo_heap) := map (fun x => Fin (ln (normal_pdf x (6 / 100) 3))) [1; 2]%R]>
    demo_heap !! 4%positive = Some [Fin 1; Fin 2] /\
  exists ws : list float,
    <[fresh (dom demo_heap) := map (fun x => Fin (ln (normal_pdf x (6 / 100) 3))) [1; 2]%R]>
      demo_heap = <[fresh (dom demo_heap) := ws]> demo_heap /\
    length ws = length [Fin 1; Fin 2].
Proof.
  apply (measure_gives_one_weight_per_particle (kalman := kalman_formulas)
           demo_model 4 (Fin 3) 0 demo_heap _ _ [Fin 1; Fin 2]).
  - reflexivity.
  - rewrite (measure_returns_lognormal (kalman := kalman_formulas) demo_model
               demo_heap (6 / 100) 4 [1; 2]%R 3 0 kalman_formulas_lognormal).
    + constructor.
    + reflexivity.
    + lra.
    + reflexivity.
Defined.

Lemma measure_is_shift_invariant_witness :
  Model.measure (kalman := kalman_formulas) demo_model 5 (shifted 9 (Fin 3)) 1 shift_heap
  = Model.measure (kalman := kalman_formulas) demo_model 4 (Fin 3) 0 shift_heap.
Proof.
  apply (measure_is_shift_invariant (kalman := kalman_formulas) demo_model 4 5
           (Fin 3) 9 0 1 shift_heap [Fin 1; Fin 2]); reflexivity.
Defined.

Lemma lognormpdf_scalar_formula_positive (err : float) (v : R) :
  (0 < v)%R ->
  lognormpdf_scalar (Kalman := kalman_formulas) err (Fin v)
  = inr (lognormal_formula err v).
Proof.
  intros Hv. cbn [lognormpdf_scalar kalman_formulas].
  unfold lognormpdf_scalar_formula.
  destruct (Rlt_dec 0 v); [reflexivity | contradiction].
Qed.

Lemma nan_measurement_weighs_all_particles_alike_witness :
  Model.measure (kalman := kalman_formulas) demo_model 4 NaN 0 demo_heap
  = Ret (fresh (dom demo_heap),
         <[fresh (dom demo_heap) := replicate (length [Fin 1; Fin 2]) NaN]> demo_heap).
Proof.
  apply (nan_measurement_weighs_all_particles_alike (kalman := kalman_formulas)
           demo_model 4 0 demo_heap [Fin 1; Fin 2] (Fin (6 / 100)) NaN).
  - reflexivity.
  - reflexivity.
  - apply (lognormpdf_scalar_formula_positive NaN). lra.
Defined.

Lemma measure_orders_particles_by_distance_witness :
  exists (out : ref) (ws : list R),
    Model.measure (kalman := kalman_formulas) demo_model 4 (Fin 3) 0 demo_heap
    = Ret (out, <[out := map Fin ws]> demo_heap) /\
    length ws = length [1; 2]%R /\
    forall (i j : nat) (xi xj wi wj : R),
      [1; 2]%R !! i = Some xi -> [1; 2]%R !! j = Some xj ->
      ws !! i = Some wi -> ws !! j = Some wj ->
      (Rabs (xi - 3) <= Rabs (xj - 3))%R -> (wj <= wi)%R.
Proof.
  apply (measure_orders_particles_by_distance (kalman := kalman_formulas)
           demo_model demo_heap (6 / 100) 4 [1; 2]%R 3 0).
  - exact kalman_formulas_lognormal.
  - reflexivity.
  - lra.
  - reflexivity.
Defined.

Lemma logp_xnext_full_is_shift_invariant_witness :
  Model.logp_xnext_full (kalman := kalman_formulas) demo_model 5
    (step_at 7 :: []) [0; 1]%Z shift_heap
  = Model.logp_xnext_full (kalman := kalman_formulas) demo_model 4
      (step_at 6 :: []) [0; 1]%Z shift_heap.
Proof.
  apply (logp_xnext_full_is_shift_invariant (kalman := kalman_formulas) demo_model
           4 5 (step_at 6) (step_at 7) [] [] [0; 1]%Z 9 shift_heap
           [Fin 1; Fin 2] [Fin 10; Fin 20]); reflexivity.
Defined.

Lemma logp_xnext_full_gives_one_value_per_pair_witness :
  demo_heap !! fresh (dom demo_heap) = None /\
  exists ws : list float,
    <[fresh (dom demo_heap) :=
        zip_with (fun xn xp => Fin (ln (normal_pdf xp (2 / 100) xn)))
          [10; 20]%R [1; 2]%R]> demo_heap
    = <[fresh (dom demo_heap) := ws]> demo_heap /\
    ((length [0; 1]%Z = length [Fin 1; Fin 2] /\ length ws = length [Fin 1; Fin 2]) \/
     (length [Fin 1; Fin 2] = 1%nat /\ length ws = length [0; 1]%Z) \/
     (length [0; 1]%Z = 1%nat /\ length ws = length [Fin 1; Fin 2])).
Proof.
  apply (logp_xnext_full_gives_one_value_per_pair (kalman := kalman_formulas)
           demo_model 4 (step_at 5) [] [0; 1]%Z demo_heap _ _
           [Fin 1; Fin 2] [Fin 10; Fin 20]).
  - reflexivity.
  - reflexivity.
  - rewrite (logp_xnext_full_returns_lognormal (kalman := kalman_formulas)
               demo_model demo_heap (2 / 100) 4 (step_at 5) [] [0; 1]%Z
               [Fin 10; Fin 20] [10; 20]%R [1; 2]%R kalman_formulas_lognormal).
    + constructor.
    + reflexivity.
    + lra.
    + reflexivity.
    + reflexivity.
    + reflexivity.
    + reflexivity.
Defined.

Lemma filters_do_not_share_arrays_witness :
  ParticleFilter.R nan_self <> ParticleFilter.R second_self /\
  <[3%positive := [Fin 1]]> nan_init_heap !! ParticleFilter.R nan_self
  = Some [Fin (6 / 100)] /\
  <[3%positive := [Fin 1]]> nan_init_heap !! ParticleFilter.R second_self
  = Some [Fin 1] /\
  forall x : ref, is_Some (nan_heap !! x) ->
    <[3%positive := [Fin 1]]> nan_init_heap !! x = nan_heap !! x /\
    x <> ParticleFilter.R nan_self /\ x <> ParticleFilter.R second_self.
Proof.
  apply (filters_do_not_share_arrays 80 40 10 5
           (Fin (2 / 100)) (Fin (2 / 100)) (Fin (6 / 100)) (Fin 1) (Fin 1) (Fin 1)
           nan_heap nan_init_heap (<[3%positive := [Fin 1]]> nan_init_heap)
           nan_self second_self); apply returns_Ret.
Defined.

